(** * GeoApi: a verified model of the HTTP client wrapper (index.js)

    The development embeds the JavaScript module [index.js] in Rocq:
    the two helpers [normalizeBaseUrl] and [buildError], and the class
    [GeoApi] whose methods funnel through [request].  JavaScript values
    are an inductive type, synchronous code returns a [completion]
    (normal value or thrown exception), and the methods, which are
    [async], thread the log of the calls received by the HTTP transport
    and return the settled state of their promise. *)

From Stdlib Require Import ZArith Ascii String List Bool Lia DecimalString.
From stdpp Require Import base option gmap strings.

Local Open Scope Z_scope.
Set Warnings "-register-all".

(** ** JavaScript values *)

(** Numbers.  A finite number is modelled by an integer (status codes,
    round indices, limits and scores are integers; [Fin 0] also stands
    for the negative zero, which no modelled operation tells apart from
    it).  The three non-finite doubles are kept, since the truthiness
    test and the comparison with zero treat them specially. *)
Inductive number : Type :=
| Fin (z : Z)
| NaN
| Infinity
| NegInfinity.

(** Plain data values: what JSON parsing, literals and arguments give.
    An object is the list of its own enumerable properties in
    enumeration order. *)
Inductive value : Type :=
| VUndefined
| VNull
| VBool (b : bool)
| VNum (n : number)
| VStr (s : string)
| VArr (a : list value)
| VObj (o : list (string * value)).

Definition obj : Type := list (string * value).

(** ToBoolean: what [if (v)], [!v] and [c ? a : b] test. *)
Definition truthy (v : value) : bool :=
  match v with
  | VUndefined | VNull => false
  | VBool b => b
  | VNum (Fin z) => negb (z =? 0)
  | VNum NaN => false
  | VNum _ => true
  | VStr s => negb (String.eqb s "")
  | VArr _ | VObj _ => true
  end.

Inductive jstype : Type :=
| TyUndefined | TyObject | TyBoolean | TyNumber | TyString.

(** The [typeof] operator ([typeof null] is 'object'). *)
Definition typeof (v : value) : jstype :=
  match v with
  | VUndefined => TyUndefined
  | VNull | VArr _ | VObj _ => TyObject
  | VBool _ => TyBoolean
  | VNum _ => TyNumber
  | VStr _ => TyString
  end.

Definition jstype_eqb (a b : jstype) : bool :=
  match a, b with
  | TyUndefined, TyUndefined | TyObject, TyObject | TyBoolean, TyBoolean
  | TyNumber, TyNumber | TyString, TyString => true
  | _, _ => false
  end.

(** Property read [o.k] on an object: the first entry named [k], or
    [undefined]. *)
Fixpoint get (o : obj) (k : string) : value :=
  match o with
  | [] => VUndefined
  | (k', v) :: rest => if String.eqb k' k then v else get rest k
  end.

(** Property read [v.k] on a value that is known to be truthy (hence not
    nullish, so that the read cannot throw): primitives and arrays have
    no property of the names read by this module. *)
Definition get_prop (v : value) (k : string) : value :=
  match v with
  | VObj o => get o k
  | _ => VUndefined
  end.

(** The relational comparison [v < 0] of a value whose type is number. *)
Definition lt_zero (n : number) : bool :=
  match n with
  | Fin z => z <? 0
  | NegInfinity => true
  | NaN | Infinity => false
  end.

(** ** Strings *)

Definition Z_to_string (z : Z) : string := NilZero.string_of_int (Z.to_int z).

(** Number::toString for the modelled numbers. *)
Definition number_to_string (n : number) : string :=
  match n with
  | Fin z => Z_to_string z
  | NaN => "NaN"
  | Infinity => "Infinity"
  | NegInfinity => "-Infinity"
  end.

(** [Array.prototype.join] on strings. *)
Fixpoint join (sep : string) (parts : list string) : string :=
  match parts with
  | [] => ""
  | [p] => p
  | p :: rest => p +:+ sep +:+ join sep rest
  end.

(** ToString, as applied by template literals and by [join].  Inside an
    array, [join] renders [null] and [undefined] as the empty string. *)
Fixpoint ToString (v : value) : string :=
  match v with
  | VUndefined => "undefined"
  | VNull => "null"
  | VBool true => "true"
  | VBool false => "false"
  | VNum n => number_to_string n
  | VStr s => s
  | VArr a =>
      join ","
        ((fix elems (l : list value) : list string :=
            match l with
            | [] => []
            | VUndefined :: r | VNull :: r => "" :: elems r
            | x :: r => ToString x :: elems r
            end) a)
  | VObj _ => "[object Object]"
  end.

(** A string of this model stands for a JavaScript string whose code
    units are all below 256.  Among those, [String.prototype.trim]
    removes TAB, LF, VT, FF, CR, SP and NBSP (U+00A0). *)
Definition is_ws (c : ascii) : bool :=
  match c with
  | "009" | "010" | "011" | "012" | "013" | " " | "160" => true
  | _ => false
  end%char.

Fixpoint trimStart (s : string) : string :=
  match s with
  | EmptyString => EmptyString
  | String c r => if is_ws c then trimStart r else s
  end.

Fixpoint trimEnd (s : string) : string :=
  match s with
  | EmptyString => EmptyString
  | String c r =>
      match trimEnd r with
      | EmptyString => if is_ws c then EmptyString else String c EmptyString
      | r' => String c r'
      end
  end.

(** [s.trim()] *)
Definition trim (s : string) : string := trimEnd (trimStart s).

(** Canonicalize of a case-insensitive regular expression without the
    unicode flag: the upper-case form.  A code unit of 128 or more never
    canonicalizes to one below 128, so only the ASCII letters matter for
    a pattern made of ASCII characters; the others are left unchanged. *)
Definition canon (c : ascii) : ascii :=
  let n := N_of_ascii c in
  if ((97 <=? n) && (n <=? 122))%N then ascii_of_N (n - 32) else c.

(** [p] matches at the start of [s], ignoring case. *)
Fixpoint ci_prefix (p s : string) : bool :=
  match p, s with
  | EmptyString, _ => true
  | String _ _, EmptyString => false
  | String a p', String b s' => Ascii.eqb (canon a) (canon b) && ci_prefix p' s'
  end.

(** [/^https?:\/\//i.test(s)] *)
Definition has_protocol (s : string) : bool :=
  ci_prefix "http://" s || ci_prefix "https://" s.

(** [s.replace(/\/$/, '')]: without the multiline flag the dollar only
    matches at the end of the input, so at most the last character goes. *)
Fixpoint strip_trailing_slash (s : string) : string :=
  match s with
  | EmptyString => EmptyString
  | String c EmptyString => if Ascii.eqb c "/" then EmptyString else s
  | String c r => String c (strip_trailing_slash r)
  end.

(** ** Exceptions and completions *)

(** An [Error] object as this module builds them: [new Error(message)],
    with the two properties [buildError] attaches ([undefined] on the
    errors that do not get them). *)
Record Error : Type := mkError {
  message : string;
  status : value;
  original : value
}.

Definition new_Error (msg : string) : Error :=
  {| message := msg; status := VUndefined; original := VUndefined |}.

(** What a [throw] carries: an [Error] built by the module, or the
    TypeError the engine raises (calling a method a value lacks). *)
Inductive exn : Type :=
| JsError (e : Error)
| TypeError.

Inductive completion (A : Type) : Type :=
| Normal (a : A)
| Throw (e : exn).
Arguments Normal {A} a.
Arguments Throw {A} e.

(** ** normalizeBaseUrl *)

Definition DEFAULT_BASE_URL : string := "api.geo.oof2510.space".

Definition normalizeBaseUrl (url : value) : completion string :=
  if negb (truthy url) then
    Throw (JsError (new_Error "A base URL must be provided."))
  else
    match url with
    | VStr s =>
        let trimmed := trim s in
        let withProtocol :=
          if has_protocol trimmed then trimmed else "https://" +:+ trimmed in
        Normal (strip_trailing_slash withProtocol)
    | _ => Throw TypeError
    end.

(** ** JSON.stringify *)

Definition hex_digit (n : N) : ascii :=
  ascii_of_N (if (n <? 10)%N then 48 + n else 87 + n).

(** QuoteJSONString on one code unit: the quote, the backslash and the
    control characters are escaped, everything else is copied. *)
Definition json_escape (c : ascii) : string :=
  let n := N_of_ascii c in
  let bs := "092"%char in
  if (n =? 34)%N then String bs (String "034"%char EmptyString)
  else if (n =? 92)%N then String bs (String bs EmptyString)
  else if (n =? 8)%N then String bs "b"
  else if (n =? 12)%N then String bs "f"
  else if (n =? 10)%N then String bs "n"
  else if (n =? 13)%N then String bs "r"
  else if (n =? 9)%N then String bs "t"
  else if (n <? 32)%N then
    String bs ("u00" +:+ String (hex_digit (n / 16)) (String (hex_digit (n mod 16)) EmptyString))
  else String c EmptyString.

Fixpoint json_escape_all (s : string) : string :=
  match s with
  | EmptyString => EmptyString
  | String c r => json_escape c +:+ json_escape_all r
  end.

Definition json_quote (s : string) : string :=
  String "034"%char (json_escape_all s +:+ String "034"%char EmptyString).

(** [JSON.stringify(v)]: [None] stands for the result [undefined].  A
    property whose value is [undefined] is left out of an object and
    rendered as null inside an array; non-finite numbers are null. *)
Fixpoint JSON_stringify (v : value) : option string :=
  match v with
  | VUndefined => None
  | VNull => Some "null"
  | VBool true => Some "true"
  | VBool false => Some "false"
  | VNum (Fin z) => Some (Z_to_string z)
  | VNum _ => Some "null"
  | VStr s => Some (json_quote s)
  | VArr a =>
      Some ("[" +:+ join ","
        ((fix elems (l : list value) : list string :=
            match l with
            | [] => []
            | x :: r =>
                match JSON_stringify x with
                | Some j => j
                | None => "null"
                end :: elems r
            end) a) +:+ "]")
  | VObj o =>
      Some ("{" +:+ join ","
        ((fix props (l : list (string * value)) : list string :=
            match l with
            | [] => []
            | (k, x) :: r =>
                match JSON_stringify x with
                | Some j => (json_quote k +:+ ":" +:+ j) :: props r
                | None => props r
                end
            end) o) +:+ "}")
  end.

(** ** buildError *)

(** The caught [error] is the rejection reason of the HTTP transport,
    an Error object: reading a property of it cannot throw.  The element
    pushed last is converted when pushed, as [join] would convert it. *)
Definition buildError (error : obj) (context : value) : Error :=
  let parts :=
    ["Api request failed" +:+
       (if truthy context then " during " +:+ ToString context else "")] in
  let response := get error "response" in
  let parts :=
    if truthy response then
      let parts := parts ++ ["status " +:+ ToString (get_prop response "status")] in
      let data := get_prop response "data" in
      if truthy data then
        let payload :=
          if jstype_eqb (typeof data) TyString then data
          else match JSON_stringify data with
               | Some j => VStr j
               | None => VUndefined
               end in
        parts ++ ["response: " +:+ ToString payload]
      else parts
    else if truthy (get error "request") then
      parts ++ ["no response received from server"]
    else if truthy (get error "message") then
      parts ++ [ToString (get error "message")]
    else parts in
  {| message := join " | " parts;
     status := if truthy response then get_prop response "status" else VUndefined;
     original := VObj error |}.

(** ** The HTTP transport *)

Inductive Method : Type := GET | POST.

(** The request descriptor handed to [client.request]; a property that
    the object literal leaves out reads as [undefined]. *)
Record RequestConfig : Type := mkConfig {
  method : Method;
  url : string;
  data : value;
  params : value
}.

(** The defaults of an axios instance: [defaults.baseURL],
    [defaults.timeout] and the header bag [defaults.headers.common]. *)
Record AxiosInstance : Type := mkAxios {
  defaults_baseURL : string;
  defaults_timeout : Z;
  defaults_headers_common : gmap string value
}.

(** [axios.create({baseURL, timeout})]: a new instance with its own copy
    of the library defaults. *)
Definition axios_create (base : string) (timeout : Z) : AxiosInstance :=
  {| defaults_baseURL := base;
     defaults_timeout := timeout;
     defaults_headers_common :=
       {[ "Accept" := VStr "application/json, text/plain, */*" ]} |}.

(** What the transport receives for one call of [client.request]: the
    descriptor merged with the defaults of the instance at that time. *)
Record Sent : Type := mkSent {
  sent_config : RequestConfig;
  sent_baseURL : string;
  sent_timeout : Z;
  sent_headers : gmap string value
}.

Definition axios_request (inst : AxiosInstance) (config : RequestConfig) : Sent :=
  {| sent_config := config;
     sent_baseURL := defaults_baseURL inst;
     sent_timeout := defaults_timeout inst;
     sent_headers := defaults_headers_common inst |}.

(** How a call ends: the promise of [client.request] is fulfilled with a
    response object or rejected with an Error object. *)
Inductive outcome : Type :=
| Fulfils (response : obj)
| Rejects (error : obj).

(** The remote side: it answers a call knowing the calls received before. *)
Definition transport : Type := list Sent -> Sent -> outcome.

(** The settled state of the promise an [async] method returns. *)
Inductive settled : Type :=
| Fulfilled (v : value)
| Rejected (e : exn).

(** An [async] method threads the log of the calls the transport has
    received (a spy on [client.request]). *)
Definition M (A : Type) : Type := list Sent -> A * list Sent.

(** A [throw] in the body of an [async] function rejects its promise;
    nothing reaches the transport. *)
Definition reject (e : Error) : M settled :=
  fun log => (Rejected (JsError e), log).

Definition guard (c : completion unit) (k : M settled) : M settled :=
  match c with
  | Normal _ => k
  | Throw e => fun log => (Rejected e, log)
  end.

Notation "c ;;; k" := (guard c k) (at level 100, k at level 200, right associativity).

(** ** The client *)

Record GeoApi : Type := mkGeoApi {
  baseURL : string;
  client : AxiosInstance;
  appCheckToken : value
}.

Definition APP_CHECK_HEADER : string := "X-Firebase-AppCheck".

Definition setAppCheckToken (this : GeoApi) (token : value) : GeoApi :=
  let c := client this in
  {| baseURL := baseURL this;
     appCheckToken := token;
     client :=
       {| defaults_baseURL := defaults_baseURL c;
          defaults_timeout := defaults_timeout c;
          defaults_headers_common :=
            if truthy token
            then <[APP_CHECK_HEADER := token]> (defaults_headers_common c)
            else delete APP_CHECK_HEADER (defaults_headers_common c) |} |}.

(** A parameter with a default value takes it when the argument is
    [undefined] (or missing). *)
Definition default_to (d v : value) : value :=
  match v with
  | VUndefined => d
  | _ => v
  end.

(** [new GeoApi(baseURL, appCheckToken)] *)
Definition GeoApi_new (baseURL appCheckToken : value) : completion GeoApi :=
  let baseURL := default_to (VStr DEFAULT_BASE_URL) baseURL in
  let appCheckToken := default_to VNull appCheckToken in
  match normalizeBaseUrl baseURL with
  | Throw e => Throw e
  | Normal base =>
      let this :=
        {| baseURL := base;
           client := axios_create base 15000;
           appCheckToken := VNull |} in
      Normal (if truthy appCheckToken
              then setAppCheckToken this appCheckToken
              else this)
  end.

Definition setBaseUrl (this : GeoApi) (baseURL : value) : completion GeoApi :=
  match normalizeBaseUrl baseURL with
  | Throw e => Throw e
  | Normal base =>
      let c := client this in
      Normal {| baseURL := base;
                appCheckToken := appCheckToken this;
                client :=
                  {| defaults_baseURL := base;
                     defaults_timeout := defaults_timeout c;
                     defaults_headers_common := defaults_headers_common c |} |}
  end.

Definition ensureAppCheckToken (this : GeoApi) (action : string) : completion unit :=
  if negb (truthy (appCheckToken this)) then
    Throw (JsError (new_Error
      ("An App Check token is required to " +:+ action +:+
       ". Call setAppCheckToken(token) first.")))
  else Normal tt.

Section Methods.

Variable server : transport.

Definition request (this : GeoApi) (config : RequestConfig) (context : value)
  : M settled :=
  fun log =>
    let sent := axios_request (client this) config in
    (match server log sent with
     | Fulfils response => Fulfilled (get response "data")
     | Rejects error => Rejected (JsError (buildError error context))
     end,
     log ++ [sent]).

Definition getImage (this : GeoApi) : M settled :=
  request this
    {| method := GET; url := "/getImage"; data := VUndefined; params := VUndefined |}
    (VStr "fetch image payload").

Definition getPano (this : GeoApi) : M settled :=
  request this
    {| method := GET; url := "/getPano"; data := VUndefined; params := VUndefined |}
    (VStr "fetch panorama image payload").

Definition startGame (this : GeoApi) : M settled :=
  ensureAppCheckToken this "start a game" ;;;
  request this
    {| method := POST; url := "/game/start"; data := VUndefined; params := VUndefined |}
    (VStr "start game").

Definition submitScore (this : GeoApi) (gameSessionId score metadata : value)
  : M settled :=
  let metadata := default_to (VObj []) metadata in
  ensureAppCheckToken this "submit a score" ;;;
  if negb (truthy gameSessionId) then
    reject (new_Error "gameSessionId is required to submit a score.")
  else if negb (jstype_eqb (typeof score) TyNumber) then
    reject (new_Error "score must be provided as a number.")
  else
    request this
      {| method := POST;
         url := "/game/submit";
         data := VObj [("gameSessionId", gameSessionId);
                       ("score", score);
                       ("metadata", metadata)];
         params := VUndefined |}
      (VStr "submit score").

Definition startAiDuel (this : GeoApi) : M settled :=
  ensureAppCheckToken this "start an AI duel" ;;;
  request this
    {| method := POST; url := "/ai-duel/start"; data := VUndefined; params := VUndefined |}
    (VStr "start AI duel").

(** [roundIndex < 0] is only evaluated on a value of type number. *)
Definition submitAiGuess (this : GeoApi) (matchId roundIndex guess : value)
  : M settled :=
  ensureAppCheckToken this "submit an AI duel guess" ;;;
  if negb (truthy matchId) then
    reject (new_Error "matchId is required to submit an AI duel guess.")
  else if negb (jstype_eqb (typeof roundIndex) TyNumber)
          || match roundIndex with VNum n => lt_zero n | _ => false end then
    reject (new_Error "roundIndex must be a non-negative number.")
  else
    request this
      {| method := POST;
         url := "/ai-duel/guess";
         data := VObj [("matchId", matchId);
                       ("roundIndex", roundIndex);
                       ("guess", guess)];
         params := VUndefined |}
      (VStr "submit AI duel guess").

Definition getLeaderboard (this : GeoApi) (limit : value) : M settled :=
  request this
    {| method := GET;
       url := "/leaderboard/top";
       data := VUndefined;
       params := if truthy limit then VObj [("limit", limit)] else VUndefined |}
    (VStr "fetch leaderboard").

Definition health (this : GeoApi) : M settled :=
  request this
    {| method := GET; url := "/health"; data := VUndefined; params := VUndefined |}
    (VStr "fetch health status").

Definition testAi (this : GeoApi) (key : value) : M settled :=
  if negb (truthy key) then
    reject (new_Error "A testing key is required to call the test AI endpoint.")
  else
    request this
      {| method := GET;
         url := "/test-ai";
         data := VUndefined;
         params := VObj [("key", key)] |}
      (VStr "test AI endpoint").

(** One call of a public method, with its arguments. *)
Inductive call : Type :=
| GetImage
| GetPano
| StartGame
| SubmitScore (gameSessionId score metadata : value)
| StartAiDuel
| SubmitAiGuess (matchId roundIndex guess : value)
| GetLeaderboard (limit : value)
| Health
| TestAi (key : value).

Definition invoke (this : GeoApi) (c : call) : M settled :=
  match c with
  | GetImage => getImage this
  | GetPano => getPano this
  | StartGame => startGame this
  | SubmitScore g s m => submitScore this g s m
  | StartAiDuel => startAiDuel this
  | SubmitAiGuess m r g => submitAiGuess this m r g
  | GetLeaderboard l => getLeaderboard this l
  | Health => health this
  | TestAi k => testAi this k
  end.

End Methods.

(** ** Specification-level vocabulary

    The predicates below follow the words of the specification; the
    theorems compare them with the functions above. *)

Fixpoint all_ws (s : string) : bool :=
  match s with
  | EmptyString => true
  | String c r => is_ws c && all_ws r
  end.

Definition head_char (s : string) : option ascii :=
  match s with
  | EmptyString => None
  | String c _ => Some c
  end.

Fixpoint last_char (s : string) : option ascii :=
  match s with
  | EmptyString => None
  | String c EmptyString => Some c
  | String _ r => last_char r
  end.

(** Neither the first nor the last character is whitespace. *)
Definition no_surrounding_ws (t : string) : Prop :=
  (forall c, head_char t = Some c -> is_ws c = false) /\
  (forall c, last_char t = Some c -> is_ws c = false).

Definition lower (c : ascii) : ascii :=
  let n := N_of_ascii c in
  if ((65 <=? n) && (n <=? 90))%N then ascii_of_N (n + 32) else c.

Fixpoint lowercase (s : string) : string :=
  match s with
  | EmptyString => EmptyString
  | String c r => String (lower c) (lowercase r)
  end.

Definition starts_with (p s : string) : Prop :=
  exists rest, s = p +:+ rest.

(** "starts with http:// or https://, case-insensitive" *)
Definition starts_with_protocol (t : string) : Prop :=
  exists p rest,
    t = p +:+ rest /\ (lowercase p = "http://" \/ lowercase p = "https://").

Definition ends_with_slash (w : string) : Prop :=
  exists w', w = w' +:+ "/".

(** Section 4.1 of the specification, for a non-empty input [s]: trim
    the whitespace, prepend the scheme unless one is there, strip one
    trailing slash. *)
Definition normalized_spec (s r : string) : Prop :=
  exists lead t trail w,
    s = lead +:+ t +:+ trail /\
    all_ws lead = true /\ all_ws trail = true /\ no_surrounding_ws t /\
    (starts_with_protocol t /\ w = t \/
     ~ starts_with_protocol t /\ w = "https://" +:+ t) /\
    (w = r +:+ "/" \/ ~ ends_with_slash w /\ r = w).

(** [needle] occurs in [hay]. *)
Definition contains (needle hay : string) : Prop :=
  exists pre post, hay = pre +:+ needle +:+ post.

(** The result of the first normalization can be normalized again
    without change: the trimmed input, less one trailing slash, is not
    empty and ends neither in a slash nor in whitespace. *)
Definition stable_input (s : string) : bool :=
  match last_char (strip_trailing_slash (trim s)) with
  | None => false
  | Some c => negb (Ascii.eqb c "/") && negb (is_ws c)
  end.

(** The App Check header is in the default header bag, with the stored
    token as its value, exactly when the stored token is truthy. *)
Definition header_invariant (this : GeoApi) : Prop :=
  defaults_headers_common (client this) !! APP_CHECK_HEADER =
    (if truthy (appCheckToken this) then Some (appCheckToken this) else None).

(** The characters of the two scheme patterns. *)
Fixpoint scheme_chars (p : string) : Prop :=
  match p with
  | EmptyString => True
  | String a r =>
      List.In a ("h" :: "t" :: "p" :: "s" :: ":" :: "/" :: nil)%char /\ scheme_chars r
  end.

(** The failures of the specification's examples, as axios reports
    them: an HTTP 500 whose body is the JSON object with the one field
    error, and a timeout. *)
Definition error_http_500 : obj :=
  [("message", VStr "Request failed with status code 500");
   ("request", VObj []);
   ("response",
     VObj [("status", VNum (Fin 500));
           ("data", VObj [("error", VStr "boom")])])].

Definition error_timeout : obj :=
  [("message", VStr "timeout of 15000ms exceeded");
   ("request", VObj [])].

(** The client [new GeoApi()] creates. *)
Definition default_client : GeoApi :=
  {| baseURL := "https://api.geo.oof2510.space";
     client := axios_create "https://api.geo.oof2510.space" 15000;
     appCheckToken := VNull |}.

(** A number below zero. *)
Definition negative (n : number) : Prop :=
  match n with
  | Fin z => z < 0
  | NegInfinity => True
  | NaN | Infinity => False
  end.

(** The field names of a request body, in order. *)
Definition body_fields (v : value) : list string :=
  match v with
  | VObj o => map fst o
  | _ => []
  end.

(** ** Vocabulary for the whole client *)

(** The guards of each method, read as a table: whether a call on the
    client [this] gets as far as the transport. *)
Definition call_accepted (this : GeoApi) (c : call) : bool :=
  match c with
  | GetImage | GetPano | Health | GetLeaderboard _ => true
  | StartGame | StartAiDuel => truthy (appCheckToken this)
  | SubmitScore gameSessionId score _ =>
      truthy (appCheckToken this) && truthy gameSessionId &&
      match score with VNum _ => true | _ => false end
  | SubmitAiGuess matchId roundIndex _ =>
      truthy (appCheckToken this) && truthy matchId &&
      match roundIndex with
      | VNum (Fin z) => 0 <=? z
      | VNum NaN | VNum Infinity => true
      | _ => false
      end
  | TestAi key => truthy key
  end.

(** The verb and the path of each method. *)
Definition endpoint (c : call) : Method * string :=
  match c with
  | GetImage => (GET, "/getImage")
  | GetPano => (GET, "/getPano")
  | StartGame => (POST, "/game/start")
  | SubmitScore _ _ _ => (POST, "/game/submit")
  | StartAiDuel => (POST, "/ai-duel/start")
  | SubmitAiGuess _ _ _ => (POST, "/ai-duel/guess")
  | GetLeaderboard _ => (GET, "/leaderboard/top")
  | Health => (GET, "/health")
  | TestAi _ => (GET, "/test-ai")
  end.

(** The clients a program can hold: built by the constructor, then
    changed by the two setters. *)
Inductive reachable : GeoApi -> Prop :=
| reach_new (url token : value) (this : GeoApi) :
    GeoApi_new url token = Normal this -> reachable this
| reach_token (this : GeoApi) (token : value) :
    reachable this -> reachable (setAppCheckToken this token)
| reach_url (this : GeoApi) (url : value) (this' : GeoApi) :
    reachable this -> setBaseUrl this url = Normal this' -> reachable this'.

(** The two copies of the base URL agree and hold a result of
    [normalizeBaseUrl], the timeout is the one of the constructor, and
    the header follows the token. *)
Definition well_formed (this : GeoApi) : Prop :=
  defaults_baseURL (client this) = baseURL this /\
  defaults_timeout (client this) = 15000 /\
  (exists s, s <> "" /\ normalizeBaseUrl (VStr s) = Normal (baseURL this)) /\
  header_invariant this.

(** A string that is a scheme and nothing else. *)
Definition bare_scheme (t : string) : Prop :=
  lowercase t = "http://" \/ lowercase t = "https://".

(** ** Running the model *)

Example is_ws_nbsp : is_ws (ascii_of_nat 160) = true /\ is_ws "a" = false.
Proof. split; reflexivity. Qed.

Example normalizeBaseUrl_upper_case :
  normalizeBaseUrl (VStr "  HTTPS://Example.com/  ") = Normal "HTTPS://Example.com".
Proof. reflexivity. Qed.

Example normalizeBaseUrl_number : normalizeBaseUrl (VNum (Fin 5)) = Throw TypeError.
Proof. reflexivity. Qed.

Example normalizeBaseUrl_blank_twice :
  normalizeBaseUrl (VStr "  ") = Normal "https:/" /\
  normalizeBaseUrl (VStr "https:/") = Normal "https://https:".
Proof. split; reflexivity. Qed.

Example normalizeBaseUrl_space_slash_twice :
  normalizeBaseUrl (VStr "a /") = Normal "https://a " /\
  normalizeBaseUrl (VStr "https://a ") = Normal "https://a".
Proof. split; reflexivity. Qed.

Example JSON_stringify_nested :
  JSON_stringify
    (VObj [("a", VArr [VNum (Fin (-3)); VUndefined; VStr "x"]);
           ("b", VUndefined);
           ("c", VBool true)]) =
  Some (String "{" (json_quote "a" +:+ ":[-3,null," +:+ json_quote "x" +:+ "]," +:+
                    json_quote "c" +:+ ":true}")).
Proof. reflexivity. Qed.

Example GeoApi_new_default :
  GeoApi_new VUndefined VUndefined = Normal default_client.
Proof. reflexivity. Qed.

(** ** Strings: basic facts *)

Lemma string_app_cons (c : ascii) (s t : string) :
  String c s +:+ t = String c (s +:+ t).
Proof. reflexivity. Qed.

Lemma string_app_nil_l (s : string) : "" +:+ s = s.
Proof. reflexivity. Qed.

Lemma string_app_nil_r (s : string) : s +:+ "" = s.
Proof. induction s as [|c s IH]; [reflexivity|]. rewrite string_app_cons, IH. reflexivity. Qed.

Lemma string_app_assoc (s t u : string) : (s +:+ t) +:+ u = s +:+ t +:+ u.
Proof.
  induction s as [|c s IH]; [reflexivity|].
  rewrite !string_app_cons, IH. reflexivity.
Qed.

Lemma string_length_app (s t : string) :
  String.length (s +:+ t) = (String.length s + String.length t)%nat.
Proof.
  induction s as [|c s IH]; [reflexivity|].
  rewrite string_app_cons. simpl. rewrite IH. reflexivity.
Qed.

Lemma string_app_eq_nil (s t : string) : s +:+ t = "" -> s = "" /\ t = "".
Proof. destruct s; [rewrite string_app_nil_l; auto | rewrite string_app_cons; discriminate]. Qed.

Lemma last_char_app_cons (s : string) (c : ascii) (t : string) :
  last_char (s +:+ String c t) = last_char (String c t).
Proof.
  induction s as [|a s IH]; [reflexivity|].
  rewrite string_app_cons.
  change (last_char (String a (s +:+ String c t)))
    with (match s +:+ String c t with
          | EmptyString => Some a
          | String _ _ => last_char (s +:+ String c t)
          end).
  destruct (s +:+ String c t) eqn:E; [|congruence].
  apply string_app_eq_nil in E as [_ E]. discriminate.
Qed.

Lemma last_char_snoc (s : string) (c : ascii) :
  last_char (s +:+ String c "") = Some c.
Proof. rewrite last_char_app_cons. reflexivity. Qed.

Lemma last_char_None (s : string) : last_char s = None -> s = "".
Proof.
  induction s as [|c s IH]; [reflexivity|].
  simpl. destruct s; [discriminate|]. intros H. specialize (IH H). discriminate.
Qed.

(** Every non-empty string is a string followed by its last character. *)
Lemma last_char_Some (s : string) (c : ascii) :
  last_char s = Some c -> exists s', s = s' +:+ String c "".
Proof.
  induction s as [|a s IH]; [discriminate|].
  destruct s as [|b s].
  - simpl. intros [= ->]. exists "". reflexivity.
  - intros H. change (last_char (String b s) = Some c) in H.
    destruct (IH H) as [s' E]. exists (String a s'). rewrite string_app_cons, <- E. reflexivity.
Qed.

(** ** trim *)

Lemma trimStart_decomp (s : string) :
  exists l, s = l +:+ trimStart s /\ all_ws l = true.
Proof.
  induction s as [|c s [l [E W]]].
  - exists "". split; reflexivity.
  - simpl. destruct (is_ws c) eqn:C.
    + exists (String c l). rewrite string_app_cons, <- E. simpl. rewrite C, W. split; reflexivity.
    + exists "". split; reflexivity.
Qed.

Lemma trimStart_head (s : string) (c : ascii) :
  head_char (trimStart s) = Some c -> is_ws c = false.
Proof.
  induction s as [|a s IH]; [discriminate|].
  simpl. destruct (is_ws a) eqn:A; [exact IH|].
  simpl. intros [= <-]. exact A.
Qed.

Lemma trimStart_id (s : string) :
  (forall c, head_char s = Some c -> is_ws c = false) -> trimStart s = s.
Proof.
  destruct s as [|a s]; [reflexivity|].
  intros H. simpl. rewrite (H a); reflexivity.
Qed.

Lemma trimStart_all_ws (s : string) : all_ws s = true -> trimStart s = "".
Proof.
  induction s as [|a s IH]; [reflexivity|].
  simpl. intros [A W]%andb_prop. rewrite A. auto.
Qed.

Lemma trimStart_app_ws (l s : string) :
  all_ws l = true -> trimStart (l +:+ s) = trimStart s.
Proof.
  induction l as [|a l IH]; [reflexivity|].
  intros [A W]%andb_prop. rewrite string_app_cons. simpl. rewrite A. auto.
Qed.

Lemma trimEnd_cons (c : ascii) (r : string) :
  trimEnd (String c r) =
    match trimEnd r with
    | EmptyString => if is_ws c then EmptyString else String c EmptyString
    | String a r' => String c (String a r')
    end.
Proof. reflexivity. Qed.

Lemma trimEnd_decomp (s : string) :
  exists r, s = trimEnd s +:+ r /\ all_ws r = true.
Proof.
  induction s as [|c s [r [E W]]].
  - exists "". split; reflexivity.
  - rewrite trimEnd_cons. destruct (trimEnd s) as [|a t].
    + rewrite string_app_nil_l in E. subst r. destruct (is_ws c) eqn:C.
      * exists (String c s). simpl. rewrite C, W. split; reflexivity.
      * exists s. split; [reflexivity | exact W].
    + exists r. split; [|exact W]. rewrite string_app_cons, <- E. reflexivity.
Qed.

Lemma trimEnd_last (s : string) (c : ascii) :
  last_char (trimEnd s) = Some c -> is_ws c = false.
Proof.
  induction s as [|a s IH]; [discriminate|].
  rewrite trimEnd_cons. destruct (trimEnd s) as [|b t].
  - destruct (is_ws a) eqn:A; [discriminate|]. simpl. intros [= <-]. exact A.
  - exact IH.
Qed.

Lemma trimEnd_id (s : string) :
  (forall c, last_char s = Some c -> is_ws c = false) -> trimEnd s = s.
Proof.
  induction s as [|a s IH]; [reflexivity|].
  intros H. rewrite trimEnd_cons. destruct s as [|b s].
  - simpl. rewrite (H a); reflexivity.
  - rewrite IH; [reflexivity|]. intros c Hc. apply H. exact Hc.
Qed.

Lemma trimEnd_all_ws (s : string) : all_ws s = true -> trimEnd s = "".
Proof.
  induction s as [|a s IH]; [reflexivity|].
  simpl. intros [A W]%andb_prop. rewrite (IH W), A. reflexivity.
Qed.

Lemma trimEnd_app_ws (t r : string) :
  all_ws r = true -> trimEnd (t +:+ r) = trimEnd t.
Proof.
  intros W. induction t as [|a t IH].
  - rewrite string_app_nil_l. apply trimEnd_all_ws, W.
  - rewrite string_app_cons, !trimEnd_cons, IH. reflexivity.
Qed.

Lemma head_char_app (s t : string) (c : ascii) :
  head_char s = Some c -> head_char (s +:+ t) = Some c.
Proof. destruct s; [discriminate|]. rewrite string_app_cons. auto. Qed.

(** [trim] removes a run of whitespace at each end and nothing else. *)
Lemma trim_decomp (s : string) :
  exists lead trail,
    s = lead +:+ trim s +:+ trail /\
    all_ws lead = true /\ all_ws trail = true /\ no_surrounding_ws (trim s).
Proof.
  destruct (trimStart_decomp s) as [l [El Wl]].
  destruct (trimEnd_decomp (trimStart s)) as [r [Er Wr]].
  exists l, r. unfold trim. split; [|split; [exact Wl|split; [exact Wr|]]].
  - rewrite <- Er. exact El.
  - split; [|apply trimEnd_last].
    intros c Hc. apply (trimStart_head s). rewrite Er. apply head_char_app, Hc.
Qed.

(** The decomposition determines the trimmed string. *)
Lemma trim_unique (lead t trail : string) :
  all_ws lead = true -> all_ws trail = true -> no_surrounding_ws t ->
  trim (lead +:+ t +:+ trail) = t.
Proof.
  intros Wl Wr [Hh Hl]. unfold trim. rewrite trimStart_app_ws by exact Wl.
  destruct t as [|a t].
  - rewrite string_app_nil_l, trimStart_all_ws by exact Wr. reflexivity.
  - rewrite trimStart_id.
    + rewrite trimEnd_app_ws by exact Wr. apply trimEnd_id, Hl.
    + intros c Hc. apply Hh. rewrite string_app_cons in Hc. exact Hc.
Qed.

Lemma trim_id (s : string) : no_surrounding_ws s -> trim s = s.
Proof.
  intros H. rewrite <- (trim_unique "" s "") at 2; try done.
  rewrite string_app_nil_l, string_app_nil_r. reflexivity.
Qed.

Lemma trim_all_ws (s : string) : all_ws s = true -> trim s = "".
Proof. intros W. unfold trim. rewrite trimStart_all_ws by exact W. reflexivity. Qed.

(** ** The trailing slash *)

Lemma strip_cons (c a : ascii) (r : string) :
  strip_trailing_slash (String c (String a r)) =
    String c (strip_trailing_slash (String a r)).
Proof. reflexivity. Qed.

Lemma strip_snoc_slash (w : string) : strip_trailing_slash (w +:+ "/") = w.
Proof.
  induction w as [|c w IH]; [reflexivity|].
  rewrite string_app_cons. destruct (w +:+ "/") as [|a r] eqn:E.
  - apply string_app_eq_nil in E as [_ E]. discriminate.
  - rewrite strip_cons, IH. reflexivity.
Qed.

Lemma strip_snoc_other (w : string) (c : ascii) :
  c <> "/"%char -> strip_trailing_slash (w +:+ String c "") = w +:+ String c "".
Proof.
  intros Hc. induction w as [|a w IH].
  - rewrite string_app_nil_l. simpl. apply Ascii.eqb_neq in Hc. rewrite Hc. reflexivity.
  - rewrite string_app_cons. destruct (w +:+ String c "") as [|b r] eqn:E.
    + apply string_app_eq_nil in E as [_ E]. discriminate.
    + rewrite strip_cons, IH. reflexivity.
Qed.

Lemma ends_with_slash_last (w : string) :
  ends_with_slash w <-> last_char w = Some "/"%char.
Proof.
  split.
  - intros [w' ->]. apply last_char_snoc.
  - intros H. apply last_char_Some in H as [w' ->]. exists w'. reflexivity.
Qed.

(** One trailing slash goes if there is one; otherwise nothing changes. *)
Lemma strip_spec (w : string) :
  w = strip_trailing_slash w +:+ "/" \/
  ~ ends_with_slash w /\ strip_trailing_slash w = w.
Proof.
  destruct (last_char w) as [c|] eqn:L.
  - destruct (Ascii.eqb_spec c "/") as [->|Hc].
    + left. apply last_char_Some in L as [w' ->]. rewrite strip_snoc_slash. reflexivity.
    + right. split.
      * rewrite ends_with_slash_last, L. congruence.
      * apply last_char_Some in L as [w' ->]. apply strip_snoc_other, Hc.
  - apply last_char_None in L as ->. right. split; [|reflexivity].
    rewrite ends_with_slash_last. discriminate.
Qed.

Lemma strip_app (p x : string) :
  x <> "" -> strip_trailing_slash (p +:+ x) = p +:+ strip_trailing_slash x.
Proof.
  intros Hx. induction p as [|c p IH]; [reflexivity|].
  rewrite !string_app_cons. destruct (p +:+ x) as [|a r] eqn:E.
  - apply string_app_eq_nil in E as [_ E]. contradiction.
  - rewrite strip_cons, IH. reflexivity.
Qed.

(** ** The scheme test *)

Lemma canon_lower (a b : ascii) :
  List.In a ("h" :: "t" :: "p" :: "s" :: ":" :: "/" :: nil)%char ->
  Ascii.eqb (canon a) (canon b) = true <-> lower b = a.
Proof.
  intros H. simpl in H.
  destruct H as [<-|[<-|[<-|[<-|[<-|[<-|[]]]]]]];
    destruct b as [[] [] [] [] [] [] [] []]; vm_compute; split; congruence.
Qed.

Lemma ci_prefix_spec (p : string) :
  scheme_chars p ->
  forall t, ci_prefix p t = true <->
            exists q rest, t = q +:+ rest /\ lowercase q = p.
Proof.
  induction p as [|a p IH]; intros Hp t.
  - split; [|reflexivity]. intros _. exists "", t. split; reflexivity.
  - destruct Hp as [Ha Hp]. specialize (IH Hp). destruct t as [|b t].
    + split; [discriminate|]. intros (q & rest & E & L).
      symmetry in E. apply string_app_eq_nil in E as [-> _]. discriminate.
    + simpl ci_prefix. rewrite andb_true_iff, (canon_lower a b Ha), IH. split.
      * intros (Hb & q & rest & -> & <-). exists (String b q), rest.
        rewrite string_app_cons. simpl. rewrite Hb. split; reflexivity.
      * intros (q & rest & E & L). destruct q as [|c q]; [discriminate|].
        rewrite string_app_cons in E. injection E as -> ->. injection L as L1 L2.
        split; [exact L1|]. exists q, rest. split; [reflexivity | exact L2].
Qed.

(** The regular expression test is the specification's "starts with
    http:// or https://, case-insensitive". *)
Lemma has_protocol_spec (t : string) :
  has_protocol t = true <-> starts_with_protocol t.
Proof.
  unfold has_protocol, starts_with_protocol.
  rewrite orb_true_iff, !ci_prefix_spec by (simpl; tauto).
  split.
  - intros [(q & rest & E & L)|(q & rest & E & L)]; exists q, rest; auto.
  - intros (q & rest & E & [L|L]); [left|right]; exists q, rest; auto.
Qed.

Lemma has_protocol_false (t : string) :
  has_protocol t = false <-> ~ starts_with_protocol t.
Proof.
  rewrite <- has_protocol_spec. destruct (has_protocol t); split; congruence.
Qed.

Lemma scheme_head_not_ws (a : ascii) :
  Ascii.eqb (canon "h") (canon a) = true -> is_ws a = false.
Proof. destruct a as [[] [] [] [] [] [] [] []]; vm_compute; congruence. Qed.

Lemma has_protocol_head (r : string) :
  has_protocol r = true ->
  exists a r', r = String a r' /\ is_ws a = false.
Proof.
  destruct r as [|a r]; [discriminate|].
  intros H. exists a, r. split; [reflexivity|].
  apply scheme_head_not_ws. unfold has_protocol in H. simpl in H.
  apply orb_prop in H as [H|H]; apply andb_prop in H as [H _]; exact H.
Qed.

Lemma lower_slash (c : ascii) : lower c = "/"%char -> c = "/"%char.
Proof. destruct c as [[] [] [] [] [] [] [] []]; vm_compute; congruence. Qed.

(** A string that is nothing but a scheme ends in two slashes. *)
Lemma bare_protocol_last (p : string) :
  lowercase p = "http://" \/ lowercase p = "https://" ->
  exists p', p = p' +:+ "//".
Proof.
  intros [H|H].
  - destruct p as [|a1 [|a2 [|a3 [|a4 [|a5 [|a6 [|a7 [|a8 p]]]]]]]]; try discriminate.
    simpl in H. injection H as _ _ _ _ _ H6 H7.
    apply lower_slash in H6 as ->. apply lower_slash in H7 as ->.
    exists (String a1 (String a2 (String a3 (String a4 (String a5 ""))))). reflexivity.
  - destruct p as [|a1 [|a2 [|a3 [|a4 [|a5 [|a6 [|a7 [|a8 [|a9 p]]]]]]]]];
      try discriminate.
    simpl in H. injection H as _ _ _ _ _ _ H7 H8.
    apply lower_slash in H7 as ->. apply lower_slash in H8 as ->.
    exists (String a1 (String a2 (String a3 (String a4 (String a5 (String a6 "")))))).
    reflexivity.
Qed.

(** ** normalizeBaseUrl: contract *)

Lemma normalizeBaseUrl_falsy (url : value) :
  truthy url = false ->
  normalizeBaseUrl url = Throw (JsError (new_Error "A base URL must be provided.")).
Proof. intros H. unfold normalizeBaseUrl. rewrite H. reflexivity. Qed.

Lemma normalizeBaseUrl_str (s : string) :
  s <> "" ->
  normalizeBaseUrl (VStr s) =
    Normal (strip_trailing_slash
              (if has_protocol (trim s) then trim s else "https://" +:+ trim s)).
Proof.
  intros Hs. unfold normalizeBaseUrl. simpl truthy.
  apply String.eqb_neq in Hs. rewrite Hs. reflexivity.
Qed.

Lemma normalizeBaseUrl_Normal_inv (s r : string) :
  normalizeBaseUrl (VStr s) = Normal r ->
  s <> "" /\
  r = strip_trailing_slash
        (if has_protocol (trim s) then trim s else "https://" +:+ trim s).
Proof.
  intros H. destruct (String.eqb_spec s "") as [->|Hs]; [discriminate|].
  rewrite normalizeBaseUrl_str in H by exact Hs. injection H as <-. auto.
Qed.

Lemma normalizeBaseUrl_meets_spec (s : string) :
  s <> "" ->
  exists r, normalizeBaseUrl (VStr s) = Normal r /\ normalized_spec s r.
Proof.
  intros Hs. rewrite normalizeBaseUrl_str by exact Hs.
  eexists. split; [reflexivity|].
  destruct (trim_decomp s) as (lead & trail & E & Wl & Wt & Ht).
  set (w := if has_protocol (trim s) then trim s else "https://" +:+ trim s).
  exists lead, (trim s), trail, w. repeat split; try assumption; try apply Ht.
  - subst w. destruct (has_protocol (trim s)) eqn:P.
    + left. split; [apply has_protocol_spec, P | reflexivity].
    + right. split; [apply has_protocol_false, P | reflexivity].
  - destruct (strip_spec w) as [H|[H1 H2]]; [left; exact H | right; auto].
Qed.

Lemma normalized_spec_unique (s r : string) :
  s <> "" -> normalized_spec s r -> normalizeBaseUrl (VStr s) = Normal r.
Proof.
  intros Hs (lead & t & trail & w & E & Wl & Wt & Ht & Hw & Hr).
  rewrite normalizeBaseUrl_str by exact Hs. f_equal.
  rewrite E, (trim_unique lead t trail Wl Wt Ht).
  assert (Ew : (if has_protocol t then t else "https://" +:+ t) = w).
  { destruct Hw as [[P ->]|[P ->]].
    - apply has_protocol_spec in P. rewrite P. reflexivity.
    - apply has_protocol_false in P. rewrite P. reflexivity. }
  rewrite Ew. destruct Hr as [->|[Hn ->]].
  - apply strip_snoc_slash.
  - destruct (strip_spec w) as [H|[_ H]]; [|exact H].
    exfalso. apply Hn. exists (strip_trailing_slash w). exact H.
Qed.

(** C2. [normalizeBaseUrl] fails, with the error "A base URL must be
    provided." (the specification's ConfigError), when the input is
    absent or the empty string.  On every other string it returns the
    input with the surrounding whitespace trimmed, "https://" prepended
    unless the trimmed string already starts with "http://" or
    "https://" in any letter case, and one trailing slash stripped if
    there is one; this determines the result.  In particular
    "example.com/" gives "https://example.com" and "http://example.com"
    is returned as it is. *)
Theorem normalizeBaseUrl_contract :
  (forall url,
     url = VUndefined \/ url = VNull \/ url = VStr "" ->
     normalizeBaseUrl url =
       Throw (JsError (new_Error "A base URL must be provided."))) /\
  (forall s,
     s <> "" ->
     exists r,
       normalizeBaseUrl (VStr s) = Normal r /\
       normalized_spec s r /\
       forall r', normalized_spec s r' -> r' = r) /\
  normalizeBaseUrl (VStr "example.com/") = Normal "https://example.com" /\
  normalizeBaseUrl (VStr "http://example.com") = Normal "http://example.com".
Proof.
  split; [|split; [|split; reflexivity]].
  - intros url [->|[->| ->]]; reflexivity.
  - intros s Hs. destruct (normalizeBaseUrl_meets_spec s Hs) as (r & Hr & Sr).
    exists r. split; [exact Hr|split; [exact Sr|]].
    intros r' Sr'. apply (normalized_spec_unique s r' Hs) in Sr'.
    congruence.
Qed.

(** The contract at the input "  api.example.org/v1/ ". *)
Lemma normalizeBaseUrl_contract_witness :
  exists r,
    normalizeBaseUrl (VStr "  api.example.org/v1/ ") = Normal r /\
    normalized_spec "  api.example.org/v1/ " r.
Proof.
  destruct (proj1 (proj2 normalizeBaseUrl_contract) "  api.example.org/v1/ ")
    as (r & H1 & H2 & _); [discriminate|].
  exists r. split; assumption.
Defined.

(** C9. On a non-empty string made of whitespace only the emptiness
    check, which runs before the trimming, lets the input through, and
    the result is "https:/": the prepended scheme less one slash. *)
Theorem normalizeBaseUrl_whitespace_only (s : string) :
  s <> "" -> all_ws s = true -> normalizeBaseUrl (VStr s) = Normal "https:/".
Proof.
  intros Hs W. rewrite normalizeBaseUrl_str by exact Hs.
  rewrite (trim_all_ws s W). reflexivity.
Qed.

Lemma normalizeBaseUrl_whitespace_only_witness :
  normalizeBaseUrl (VStr "  ") = Normal "https:/".
Proof.
  apply (normalizeBaseUrl_whitespace_only "  "); [discriminate | reflexivity].
Defined.

(** ** normalizeBaseUrl: when a second pass changes nothing *)

Lemma length_strip (w : string) :
  w = strip_trailing_slash w \/
  String.length w = S (String.length (strip_trailing_slash w)).
Proof.
  destruct (strip_spec w) as [H|[_ H]]; [right | left; congruence].
  rewrite H at 1. rewrite string_length_app. simpl. lia.
Qed.

Lemma length_zero (s : string) : String.length s = 0%nat -> s = "".
Proof. destruct s; [reflexivity | discriminate]. Qed.

Lemma length_trim (s : string) : (String.length (trim s) <= String.length s)%nat.
Proof.
  destruct (trim_decomp s) as (l & r & E & _).
  rewrite E at 2. rewrite !string_length_app. lia.
Qed.

Lemma trim_same_length (s : string) :
  String.length (trim s) = String.length s -> no_surrounding_ws s.
Proof.
  intros H. destruct (trim_decomp s) as (l & r & E & _ & _ & N).
  assert (L : (String.length s =
               String.length l + (String.length (trim s) + String.length r))%nat).
  { rewrite E at 1. rewrite !string_length_app. reflexivity. }
  assert (l = "") as -> by (apply length_zero; lia).
  assert (r = "") as -> by (apply length_zero; lia).
  rewrite string_app_nil_l, string_app_nil_r in E. rewrite E. exact N.
Qed.

(** Trimming the end leaves alone a prefix that ends in a character
    other than whitespace. *)
Lemma trimEnd_prefix (p z : string) (c : ascii) :
  last_char p = Some c -> is_ws c = false ->
  exists z', trimEnd (p +:+ z) = p +:+ z'.
Proof.
  intros L C. induction p as [|a p IH]; [discriminate|].
  rewrite string_app_cons, trimEnd_cons. destruct p as [|b p].
  - injection L as ->. exists (trimEnd z). rewrite string_app_nil_l.
    destruct (trimEnd z); [rewrite C|]; reflexivity.
  - destruct (IH L) as [z' E]. rewrite E. exists z'.
    rewrite !string_app_cons. reflexivity.
Qed.

(** The shape of a successful result. *)
Lemma normalizeBaseUrl_shape (s r : string) :
  normalizeBaseUrl (VStr s) = Normal r ->
  trim s = "" /\ r = "https:/" \/
  trim s <> "" /\ has_protocol (trim s) = true /\
    r = strip_trailing_slash (trim s) \/
  trim s <> "" /\ has_protocol (trim s) = false /\
    r = "https://" +:+ strip_trailing_slash (trim s).
Proof.
  intros H. apply normalizeBaseUrl_Normal_inv in H as [_ ->].
  destruct (String.eqb_spec (trim s) "") as [E|E].
  - left. rewrite E. split; reflexivity.
  - right. destruct (has_protocol (trim s)) eqn:P; [left | right];
      repeat split; try assumption. apply strip_app, E.
Qed.

(** A string that ends in a clean character and carries a scheme is
    returned unchanged. *)
Lemma normalizeBaseUrl_fixed (r : string) (c : ascii) :
  has_protocol r = true ->
  last_char r = Some c -> c <> "/"%char -> is_ws c = false ->
  normalizeBaseUrl (VStr r) = Normal r.
Proof.
  intros P L Hc Wc.
  destruct (has_protocol_head r P) as (a & r' & E & Wa).
  assert (T : trim r = r).
  { apply trim_id. split.
    - rewrite E. simpl. intros ? [= <-]. exact Wa.
    - rewrite L. intros ? [= <-]. exact Wc. }
  rewrite normalizeBaseUrl_str by (rewrite E; discriminate).
  rewrite T, P. f_equal.
  destruct (last_char_Some r c L) as [r0 ->]. apply strip_snoc_other, Hc.
Qed.

(** Conversely, a string that [normalizeBaseUrl] returns unchanged ends
    in a character that is neither a slash nor whitespace. *)
Lemma normalizeBaseUrl_fixed_inv (r : string) :
  normalizeBaseUrl (VStr r) = Normal r ->
  exists c, last_char r = Some c /\ c <> "/"%char /\ is_ws c = false.
Proof.
  intros H. apply normalizeBaseUrl_Normal_inv in H as [Hr E].
  destruct (has_protocol (trim r)) eqn:P.
  - assert (N : no_surrounding_ws r).
    { apply trim_same_length. pose proof (length_trim r) as L1.
      destruct (length_strip (trim r)) as [L2|L2].
      - rewrite <- L2 in E. rewrite <- E. reflexivity.
      - rewrite <- E in L2. lia. }
    rewrite (trim_id r N) in E.
    destruct (last_char r) as [c|] eqn:L; [|apply last_char_None in L; contradiction].
    exists c. split; [reflexivity|]. split; [|apply N, L].
    intros ->. destruct (last_char_Some r _ L) as [r0 E0].
    rewrite E0, strip_snoc_slash in E. apply (f_equal String.length) in E.
    rewrite string_length_app in E. simpl in E. lia.
  - exfalso. destruct (trim r) as [|a x] eqn:T.
    + subst r. discriminate.
    + rewrite strip_app in E by discriminate.
      destruct (trimEnd_prefix "https://" (strip_trailing_slash (String a x)) "/")
        as [z' Ez]; [reflexivity | reflexivity |].
      assert (T' : trim r = "https://" +:+ z').
      { rewrite E. exact Ez. }
      rewrite T' in T. rewrite <- T in P. discriminate.
Qed.

Lemma last_char_app_nonempty (p u : string) :
  u <> "" -> last_char (p +:+ u) = last_char u.
Proof. destruct u as [|c u]; [contradiction|]. intros _. apply last_char_app_cons. Qed.

Lemma strip_protocol_keeps (t : string) (c : ascii) :
  has_protocol t = true ->
  last_char (strip_trailing_slash t) = Some c -> c <> "/"%char ->
  has_protocol (strip_trailing_slash t) = true.
Proof.
  intros P L Hc. apply has_protocol_spec in P as (p & rest & -> & Hp).
  destruct rest as [|a rest].
  - exfalso. destruct (bare_protocol_last p Hp) as [p' ->].
    rewrite string_app_nil_r in L.
    change (p' +:+ "//") with (p' +:+ "/" +:+ "/") in L.
    rewrite <- string_app_assoc, strip_snoc_slash, last_char_snoc in L. congruence.
  - rewrite strip_app by discriminate. apply has_protocol_spec.
    exists p, (strip_trailing_slash (String a rest)). auto.
Qed.

(** C5 (amended).  Whenever [normalizeBaseUrl] succeeds on a string, it
    succeeds again on its own result, and the second result equals the
    first exactly when the trimmed input, less one trailing slash, is
    not empty and ends neither in a slash nor in a whitespace
    character. *)
Theorem normalizeBaseUrl_idempotent_iff (s r : string) :
  normalizeBaseUrl (VStr s) = Normal r ->
  (exists r', normalizeBaseUrl (VStr r) = Normal r') /\
  (normalizeBaseUrl (VStr r) = Normal r <-> stable_input s = true).
Proof.
  intros H. split.
  - assert (Hr : r <> "").
    { destruct (normalizeBaseUrl_shape s r H) as [[_ ->]|[(T & P & ->)|(_ & _ & ->)]];
        try discriminate.
      intros E. apply has_protocol_spec in P as (p & rest & Et & Hp).
      rewrite Et in E. destruct rest as [|a rest].
      + destruct (bare_protocol_last p Hp) as [p' ->]. rewrite string_app_nil_r in E.
        change (p' +:+ "//") with (p' +:+ "/" +:+ "/") in E.
        rewrite <- string_app_assoc, strip_snoc_slash in E.
        apply string_app_eq_nil in E as [_ E]. discriminate.
      + rewrite strip_app in E by discriminate.
        apply string_app_eq_nil in E as [-> _]. destruct Hp; discriminate. }
    eexists. apply normalizeBaseUrl_str, Hr.
  - unfold stable_input.
    destruct (normalizeBaseUrl_shape s r H) as [[T ->]|[(T & P & ->)|(T & P & ->)]].
    + rewrite T. split; discriminate.
    + split.
      * intros F. destruct (normalizeBaseUrl_fixed_inv _ F) as (c & L & Hc & Wc).
        rewrite L, Wc. apply Ascii.eqb_neq in Hc. rewrite Hc. reflexivity.
      * destruct (last_char (strip_trailing_slash (trim s))) as [c|] eqn:L;
          [|discriminate].
        intros [Hc Wc]%andb_prop.
        apply negb_true_iff in Hc, Wc. apply Ascii.eqb_neq in Hc.
        apply (normalizeBaseUrl_fixed _ c); try assumption.
        apply (strip_protocol_keeps _ c); assumption.
    + destruct (String.eqb_spec (strip_trailing_slash (trim s)) "") as [E|E].
      * rewrite E. split; discriminate.
      * rewrite <- (last_char_app_nonempty "https://" _ E). split.
        -- intros F. destruct (normalizeBaseUrl_fixed_inv _ F) as (c & L & Hc & Wc).
           rewrite L, Wc. apply Ascii.eqb_neq in Hc. rewrite Hc. reflexivity.
        -- destruct (last_char ("https://" +:+ strip_trailing_slash (trim s)))
             as [c|] eqn:L; [|discriminate].
           intros [Hc Wc]%andb_prop.
           apply negb_true_iff in Hc, Wc. apply Ascii.eqb_neq in Hc.
           apply (normalizeBaseUrl_fixed _ c); try assumption. reflexivity.
Qed.

(** The amended claim at the specification's example "example.com/". *)
Lemma normalizeBaseUrl_idempotent_witness :
  normalizeBaseUrl (VStr "https://example.com") = Normal "https://example.com".
Proof.
  apply (proj2 (normalizeBaseUrl_idempotent_iff
                  "example.com/" "https://example.com" eq_refl)).
  reflexivity.
Defined.

(** C5 as stated fails: a second pass strips a second slash. *)
Lemma normalizeBaseUrl_not_idempotent :
  ~ (forall s r,
       normalizeBaseUrl (VStr s) = Normal r ->
       normalizeBaseUrl (VStr r) = Normal r).
Proof.
  intros H. specialize (H "example.com//" "https://example.com/" eq_refl).
  discriminate.
Qed.

(** ** buildError and request *)

Lemma contains_here (pre needle post : string) :
  contains needle (pre +:+ needle +:+ post).
Proof. exists pre, post. reflexivity. Qed.

Lemma contains_end (pre needle : string) : contains needle (pre +:+ needle).
Proof. exists pre, "". rewrite string_app_nil_r. reflexivity. Qed.

Lemma contains_app_r (needle s t : string) :
  contains needle t -> contains needle (s +:+ t).
Proof.
  intros (pre & post & ->). exists (s +:+ pre), post. rewrite string_app_assoc. reflexivity.
Qed.

Lemma contains_app_l (needle s t : string) :
  contains needle s -> contains needle (s +:+ t).
Proof.
  intros (pre & post & ->). exists pre, (post +:+ t).
  rewrite !string_app_assoc. reflexivity.
Qed.

Lemma contains_trans (a b c : string) :
  contains a b -> contains b c -> contains a c.
Proof.
  intros Hab (pre & post & ->). apply contains_app_r, contains_app_l, Hab.
Qed.

Lemma JSON_stringify_truthy (data : value) :
  truthy data = true -> exists j, JSON_stringify data = Some j.
Proof.
  destruct data as [| |[]|[]|s|a|o]; try discriminate; intros _; eexists; reflexivity.
Qed.

Lemma truthy_VStr (s : string) : truthy (VStr s) = true <-> s <> "".
Proof.
  simpl. rewrite negb_true_iff. apply String.eqb_neq.
Qed.

(** C1. The error [request] throws when the transport fails is
    [buildError] of the transport's error.  Its message is the parts
    joined by " | ", the first part being "Api request failed" followed
    by " during " and the context (when one is given); the original
    error is kept.  There are three cases.  With a response: the message
    contains "status <code>", the status field is the code, and a
    present (truthy) body follows as "response: " and the body itself if
    it is a string, its JSON text otherwise.  Without a response but
    with a request: the message ends in "no response received from
    server" and the status is undefined.  Otherwise the text of the
    underlying error's message is appended, and the status is
    undefined. *)
Theorem buildError_cases
    (server : transport) (this : GeoApi) (config : RequestConfig)
    (log : list Sent) (error : obj) (context : value) :
  let wrapped := buildError error context in
  let response := get error "response" in
  let code := get_prop response "status" in
  let body := get_prop response "data" in
  let head :=
    "Api request failed" +:+
      (if truthy context then " during " +:+ ToString context else "") in
  (server log (axios_request (client this) config) = Rejects error ->
   request server this config context log =
     (Rejected (JsError wrapped), log ++ [axios_request (client this) config])) /\
  original wrapped = VObj error /\
  starts_with head (message wrapped) /\
  (truthy response = true ->
     status wrapped = code /\
     contains ("status " +:+ ToString code) (message wrapped) /\
     (truthy body = false ->
        message wrapped = head +:+ " | status " +:+ ToString code) /\
     (forall s, body = VStr s -> s <> "" ->
        message wrapped =
          head +:+ " | status " +:+ ToString code +:+ " | response: " +:+ s) /\
     (truthy body = true -> typeof body <> TyString ->
        exists j, JSON_stringify body = Some j /\
          message wrapped =
            head +:+ " | status " +:+ ToString code +:+ " | response: " +:+ j)) /\
  (truthy response = false -> truthy (get error "request") = true ->
     status wrapped = VUndefined /\
     message wrapped = head +:+ " | no response received from server") /\
  (truthy response = false -> truthy (get error "request") = false ->
     status wrapped = VUndefined /\
     (truthy (get error "message") = false -> message wrapped = head) /\
     (truthy (get error "message") = true ->
        message wrapped = head +:+ " | " +:+ ToString (get error "message")) /\
     (forall m, get error "message" = VStr m -> contains m (message wrapped))).
Proof.
  intros wrapped response code body head.
  split; [|split; [reflexivity|split]].
  - intros Hs. unfold request. rewrite Hs. reflexivity.
  - subst wrapped. unfold buildError. fold response body code head.
    destruct (truthy response); [destruct (truthy body)|
      destruct (truthy (get error "request"));
        [|destruct (truthy (get error "message"))]];
      simpl; try (eexists; reflexivity).
    exists "". rewrite string_app_nil_r. reflexivity.
  - subst wrapped. unfold buildError. fold response body code head.
    split; [|split].
    + intros R. rewrite R. split; [reflexivity|]. split; [|split; [|split]].
      * destruct (truthy body); simpl message.
        -- rewrite <- string_app_assoc. apply contains_here.
        -- rewrite <- string_app_assoc. apply contains_end.
      * intros B. rewrite B. reflexivity.
      * intros s Es Hs. apply truthy_VStr in Hs. rewrite Es in *. rewrite Hs.
        reflexivity.
      * intros B T. destruct (JSON_stringify_truthy body B) as [j Ej].
        exists j. split; [exact Ej|]. rewrite B, Ej.
        destruct body; try discriminate; try reflexivity. contradiction.
    + intros R Q. rewrite R, Q. split; reflexivity.
    + intros R Q. rewrite R, Q. split; [reflexivity|]. split; [|split].
      * intros Hm. rewrite Hm. reflexivity.
      * intros Hm. rewrite Hm. reflexivity.
      * intros m Em. rewrite Em. destruct (truthy (VStr m)) eqn:Hm; simpl message.
        -- rewrite <- string_app_assoc. apply contains_end.
        -- destruct m; [|discriminate]. exists head, "". symmetry. apply string_app_nil_r.
Qed.


(** The specification's two transport examples. *)
Lemma buildError_http_500_witness :
  let wrapped := buildError error_http_500 (VStr "start game") in
  contains "status 500" (message wrapped) /\
  contains "boom" (message wrapped) /\
  status wrapped = VNum (Fin 500) /\
  original wrapped = VObj error_http_500.
Proof.
  pose proof (buildError_cases (fun _ _ => Rejects error_http_500) default_client
                (mkConfig POST "/game/start" VUndefined VUndefined) []
                error_http_500 (VStr "start game")) as H.
  cbv zeta in H. destruct H as (_ & Ho & _ & H1 & _).
  destruct (H1 eq_refl) as (Hs & Hc & _ & _ & Hj).
  destruct (Hj eq_refl) as (j & Ej & Em); [discriminate|].
  intros wrapped. split; [exact Hc|]. split; [|split; [exact Hs | exact Ho]].
  subst wrapped. rewrite Em. apply (contains_trans _ j).
  - injection Ej as <-.
    exists (String "{" (json_quote "error" +:+ ":" +:+ String "034" "")),
           (String "034" "}").
    reflexivity.
  - rewrite <- !string_app_assoc. apply contains_end.
Defined.

Example buildError_timeout :
  buildError error_timeout (VStr "fetch leaderboard") =
    {| message :=
         "Api request failed during fetch leaderboard | no response received from server";
       status := VUndefined;
       original := VObj error_timeout |}.
Proof. reflexivity. Qed.

Example request_timeout :
  request (fun _ _ => Rejects error_timeout) default_client
    (mkConfig GET "/health" VUndefined VUndefined) (VStr "fetch health status") [] =
  (Rejected (JsError
     {| message :=
          "Api request failed during fetch health status | no response received from server";
        status := VUndefined;
        original := VObj error_timeout |}),
   [axios_request (client default_client)
      (mkConfig GET "/health" VUndefined VUndefined)]).
Proof. reflexivity. Qed.

(** ** The guard of the protected methods *)

Lemma ensureAppCheckToken_missing (this : GeoApi) (action : string) :
  truthy (appCheckToken this) = false ->
  ensureAppCheckToken this action =
    Throw (JsError (new_Error
      ("An App Check token is required to " +:+ action +:+
       ". Call setAppCheckToken(token) first."))).
Proof. intros H. unfold ensureAppCheckToken. rewrite H. reflexivity. Qed.

Lemma ensureAppCheckToken_present (this : GeoApi) (action : string) :
  truthy (appCheckToken this) = true ->
  ensureAppCheckToken this action = Normal tt.
Proof. intros H. unfold ensureAppCheckToken. rewrite H. reflexivity. Qed.

(** C3. On a client whose token is not configured (the stored token is
    null, as after construction without one or after clearing, or
    empty) each of the four protected methods rejects with the error
    naming its action, whatever its arguments and whatever the
    transport would answer, and the transport receives no call: the
    log is unchanged.  The methods are [async]: the error thrown in
    their synchronous part is the rejection of the returned promise. *)
Theorem protected_methods_require_token
    (server : transport) (this : GeoApi) (log : list Sent) :
  truthy (appCheckToken this) = false ->
  startGame server this log =
    (Rejected (JsError (new_Error
       "An App Check token is required to start a game. Call setAppCheckToken(token) first.")),
     log) /\
  (forall gameSessionId score metadata,
     submitScore server this gameSessionId score metadata log =
       (Rejected (JsError (new_Error
          "An App Check token is required to submit a score. Call setAppCheckToken(token) first.")),
        log)) /\
  startAiDuel server this log =
    (Rejected (JsError (new_Error
       "An App Check token is required to start an AI duel. Call setAppCheckToken(token) first.")),
     log) /\
  (forall matchId roundIndex guess,
     submitAiGuess server this matchId roundIndex guess log =
       (Rejected (JsError (new_Error
          "An App Check token is required to submit an AI duel guess. Call setAppCheckToken(token) first.")),
        log)).
Proof.
  intros H. repeat split; intros;
    unfold startGame, submitScore, startAiDuel, submitAiGuess;
    rewrite ensureAppCheckToken_missing by exact H; reflexivity.
Qed.

(** The guard on a client built without a token, and on one whose token
    was set and then cleared. *)
Lemma protected_methods_require_token_witness :
  GeoApi_new VUndefined VUndefined = Normal default_client /\
  fst (startGame (fun _ _ => Fulfils []) default_client []) =
    Rejected (JsError (new_Error
      "An App Check token is required to start a game. Call setAppCheckToken(token) first.")) /\
  snd (submitScore (fun _ _ => Fulfils [])
         (setAppCheckToken (setAppCheckToken default_client (VStr "abc")) VNull)
         (VStr "g1") (VNum (Fin 10)) VUndefined []) = [].
Proof.
  split; [reflexivity|]. split.
  - rewrite (proj1 (protected_methods_require_token
                      (fun _ _ => Fulfils []) default_client [] eq_refl)).
    reflexivity.
  - destruct (protected_methods_require_token (fun _ _ => Fulfils [])
                (setAppCheckToken (setAppCheckToken default_client (VStr "abc")) VNull)
                [] eq_refl) as (_ & H & _).
    rewrite H. reflexivity.
Defined.

(** ** submitScore *)

(** C4 (amended).  With a token configured, a truthy [gameSessionId]
    and a [score] of type number, [submitScore] sends exactly one
    request, POST /game/submit, whose body has the fields
    gameSessionId, score and metadata, in this order, holding the
    arguments; an omitted [metadata] is the empty object. *)
Theorem submitScore_request
    (server : transport) (this : GeoApi) (log : list Sent)
    (gameSessionId score metadata : value) :
  truthy (appCheckToken this) = true ->
  truthy gameSessionId = true ->
  typeof score = TyNumber ->
  exists sent,
    snd (submitScore server this gameSessionId score metadata log) = log ++ [sent] /\
    sent = axios_request (client this) (sent_config sent) /\
    method (sent_config sent) = POST /\
    url (sent_config sent) = "/game/submit" /\
    params (sent_config sent) = VUndefined /\
    body_fields (data (sent_config sent)) = ["gameSessionId"; "score"; "metadata"] /\
    get_prop (data (sent_config sent)) "gameSessionId" = gameSessionId /\
    get_prop (data (sent_config sent)) "score" = score /\
    get_prop (data (sent_config sent)) "metadata" =
      (if jstype_eqb (typeof metadata) TyUndefined then VObj [] else metadata).
Proof.
  intros Ht Hg Hs. unfold submitScore.
  rewrite ensureAppCheckToken_present by exact Ht.
  rewrite Hg, Hs. simpl. eexists. split; [reflexivity|].
  repeat split. destruct metadata; reflexivity.
Qed.

Lemma submitScore_request_witness :
  exists sent,
    snd (submitScore (fun _ _ => Fulfils [("data", VObj [("ok", VBool true)])])
           (setAppCheckToken default_client (VStr "abc"))
           (VStr "g1") (VNum (Fin 10)) VUndefined []) = [sent] /\
    data (sent_config sent) =
      VObj [("gameSessionId", VStr "g1"); ("score", VNum (Fin 10)); ("metadata", VObj [])].
Proof.
  destruct (submitScore_request
              (fun _ _ => Fulfils [("data", VObj [("ok", VBool true)])])
              (setAppCheckToken default_client (VStr "abc")) []
              (VStr "g1") (VNum (Fin 10)) VUndefined eq_refl eq_refl eq_refl)
    as (sent & H & _).
  exists sent. split; [exact H|].
  simpl in H. injection H as <-. reflexivity.
Defined.

(** C4 as stated fails: the body is not made of the fields id, score
    and meta. *)
Lemma submitScore_fields_not_id_score_meta :
  ~ (forall (server : transport) (this : GeoApi) (log : list Sent)
            (gameSessionId score metadata : value),
       truthy (appCheckToken this) = true ->
       truthy gameSessionId = true ->
       typeof score = TyNumber ->
       exists sent,
         snd (submitScore server this gameSessionId score metadata log) = log ++ [sent] /\
         method (sent_config sent) = POST /\
         url (sent_config sent) = "/game/submit" /\
         body_fields (data (sent_config sent)) = ["id"; "score"; "meta"]).
Proof.
  intros H.
  destruct (H (fun _ _ => Fulfils []) (setAppCheckToken default_client (VStr "abc")) []
              (VStr "g1") (VNum (Fin 10)) VUndefined eq_refl eq_refl eq_refl)
    as (sent & Hs & _ & _ & Hb).
  simpl in Hs. injection Hs as <-. discriminate.
Qed.

(** ** The App Check header *)

Lemma setAppCheckToken_invariant (this : GeoApi) (token : value) :
  header_invariant (setAppCheckToken this token).
Proof.
  unfold header_invariant, setAppCheckToken. simpl.
  destruct (truthy token).
  - apply lookup_insert_eq.
  - apply lookup_delete_eq.
Qed.

Lemma axios_create_no_header (base : string) (timeout : Z) :
  defaults_headers_common (axios_create base timeout) !! APP_CHECK_HEADER = None.
Proof. reflexivity. Qed.

Lemma GeoApi_new_invariant (url token : value) (this : GeoApi) :
  GeoApi_new url token = Normal this -> header_invariant this.
Proof.
  unfold GeoApi_new. destruct (normalizeBaseUrl _) as [base|e]; [|discriminate].
  destruct (truthy (default_to VNull token)); intros [= <-].
  - apply setAppCheckToken_invariant.
  - reflexivity.
Qed.

Lemma setBaseUrl_invariant (this : GeoApi) (url : value) (this' : GeoApi) :
  header_invariant this -> setBaseUrl this url = Normal this' ->
  header_invariant this'.
Proof.
  unfold setBaseUrl. destruct (normalizeBaseUrl url) as [base|e]; [|discriminate].
  intros H [= <-]. exact H.
Qed.

(** A method call hands the transport at most one request, built from
    the defaults of the client at the time of the call. *)
Lemma invoke_log (server : transport) (this : GeoApi) (c : call) (log : list Sent) :
  snd (invoke server this c log) = log \/
  exists config,
    snd (invoke server this c log) = log ++ [axios_request (client this) config].
Proof.
  destruct c; simpl;
    unfold getImage, getPano, startGame, submitScore, startAiDuel, submitAiGuess,
      getLeaderboard, health, testAi, ensureAppCheckToken, guard, reject, request;
    repeat match goal with
      | |- context [if ?b then _ else _] => destruct b
      end;
    simpl; eauto.
Qed.

Lemma invoke_headers
    (server : transport) (this : GeoApi) (c : call) (log : list Sent) (sent : Sent) :
  snd (invoke server this c log) = log ++ [sent] ->
  sent_headers sent = defaults_headers_common (client this).
Proof.
  intros H. destruct (invoke_log server this c log) as [E|[config E]].
  - rewrite E in H. apply (f_equal (@List.length Sent)) in H.
    rewrite List.length_app in H. simpl in H. lia.
  - rewrite E in H. apply app_inv_head in H. injection H as <-. reflexivity.
Qed.

(** C6. The constructor establishes, and [setAppCheckToken] and
    [setBaseUrl] keep, the invariant that the default header
    X-Firebase-AppCheck is present, with the stored token as its value,
    exactly when the stored token is truthy (a non-empty string).
    Hence after [setAppCheckToken] with a truthy token every request of
    every method carries the header with that token, and after
    [setAppCheckToken(null)], also when it follows
    [setAppCheckToken("abc")], the stored token is null and no request
    carries the header. *)
Theorem appCheck_header_invariant :
  (forall url token this,
     GeoApi_new url token = Normal this -> header_invariant this) /\
  (forall this token, header_invariant (setAppCheckToken this token)) /\
  (forall this url this',
     header_invariant this -> setBaseUrl this url = Normal this' ->
     header_invariant this') /\
  (forall this token,
     appCheckToken (setAppCheckToken this token) = token) /\
  (forall this server c log sent,
     header_invariant this ->
     snd (invoke server this c log) = log ++ [sent] ->
     sent_headers sent !! APP_CHECK_HEADER =
       (if truthy (appCheckToken this) then Some (appCheckToken this) else None)) /\
  (forall this token server c log sent,
     truthy token = true ->
     snd (invoke server (setAppCheckToken this token) c log) = log ++ [sent] ->
     sent_headers sent !! APP_CHECK_HEADER = Some token) /\
  (forall this server c log sent,
     let cleared := setAppCheckToken (setAppCheckToken this (VStr "abc")) VNull in
     appCheckToken cleared = VNull /\
     (snd (invoke server cleared c log) = log ++ [sent] ->
      sent_headers sent !! APP_CHECK_HEADER = None)).
Proof.
  split; [exact GeoApi_new_invariant|].
  split; [exact setAppCheckToken_invariant|].
  split; [exact setBaseUrl_invariant|].
  split; [reflexivity|].
  assert (G : forall this server c log sent,
             header_invariant this ->
             snd (invoke server this c log) = log ++ [sent] ->
             sent_headers sent !! APP_CHECK_HEADER =
               (if truthy (appCheckToken this) then Some (appCheckToken this) else None)).
  { intros this server c log sent I H.
    rewrite (invoke_headers server this c log sent H). exact I. }
  split; [exact G|]. split.
  - intros this token server c log sent T H.
    rewrite (G _ server c log sent (setAppCheckToken_invariant this token) H).
    simpl. rewrite T. reflexivity.
  - intros this server c log sent cleared. split; [reflexivity|].
    intros H.
    rewrite (G _ server c log sent (setAppCheckToken_invariant _ VNull) H).
    reflexivity.
Qed.

(** The header on the requests of a client whose token is "abc", and
    after the token is cleared. *)
Lemma appCheck_header_witness :
  (forall sent,
     snd (getImage (fun _ _ => Fulfils [])
            (setAppCheckToken default_client (VStr "abc")) []) = [sent] ->
     sent_headers sent !! APP_CHECK_HEADER = Some (VStr "abc")) /\
  (forall sent,
     snd (getImage (fun _ _ => Fulfils [])
            (setAppCheckToken (setAppCheckToken default_client (VStr "abc")) VNull)
            []) = [sent] ->
     sent_headers sent !! APP_CHECK_HEADER = None).
Proof.
  destruct appCheck_header_invariant as (_ & _ & _ & _ & _ & H1 & H2).
  split; intros sent H.
  - apply (H1 default_client (VStr "abc") (fun _ _ => Fulfils []) GetImage [] sent);
      [reflexivity | exact H].
  - apply (H2 default_client (fun _ _ => Fulfils []) GetImage [] sent). exact H.
Defined.

(** ** submitAiGuess *)

Lemma lt_zero_negative (n : number) : lt_zero n = true <-> negative n.
Proof.
  destruct n as [z| | |]; simpl.
  - apply Z.ltb_lt.
  - split; [discriminate | contradiction].
  - split; [discriminate | contradiction].
  - split; auto.
Qed.

(** C7. With a token configured, [submitAiGuess] rejects before any
    call of the transport (the log is unchanged) when [matchId] is
    empty (falsy), when the type of [roundIndex] is not number, and when
    [roundIndex] is below zero; the error messages are those of the
    specification's ValidationError cases.  In every other case,
    including the number NaN, it sends exactly one request, POST
    /ai-duel/guess, with the body fields matchId, roundIndex and guess
    holding the arguments. *)
Theorem submitAiGuess_validation
    (server : transport) (this : GeoApi) (log : list Sent)
    (matchId roundIndex guess : value) :
  truthy (appCheckToken this) = true ->
  (truthy matchId = false ->
     submitAiGuess server this matchId roundIndex guess log =
       (Rejected (JsError (new_Error
          "matchId is required to submit an AI duel guess.")), log)) /\
  (truthy matchId = true ->
   typeof roundIndex <> TyNumber \/ (exists n, roundIndex = VNum n /\ negative n) ->
     submitAiGuess server this matchId roundIndex guess log =
       (Rejected (JsError (new_Error
          "roundIndex must be a non-negative number.")), log)) /\
  (truthy matchId = true ->
   (exists n, roundIndex = VNum n /\ ~ negative n) ->
     submitAiGuess server this matchId roundIndex guess log =
       request server this
         {| method := POST;
            url := "/ai-duel/guess";
            data := VObj [("matchId", matchId);
                          ("roundIndex", roundIndex);
                          ("guess", guess)];
            params := VUndefined |}
         (VStr "submit AI duel guess") log /\
     snd (submitAiGuess server this matchId roundIndex guess log) =
       log ++ [axios_request (client this)
                 {| method := POST;
                    url := "/ai-duel/guess";
                    data := VObj [("matchId", matchId);
                                  ("roundIndex", roundIndex);
                                  ("guess", guess)];
                    params := VUndefined |}]).
Proof.
  intros Ht. unfold submitAiGuess.
  rewrite ensureAppCheckToken_present by exact Ht. simpl guard.
  split; [|split].
  - intros Hm. rewrite Hm. reflexivity.
  - intros Hm Hr. rewrite Hm. cbn [negb].
    destruct Hr as [Hr|(n & -> & Hn)].
    + destruct roundIndex; try reflexivity. exfalso. apply Hr. reflexivity.
    + apply lt_zero_negative in Hn. cbn [typeof jstype_eqb negb orb].
      rewrite Hn. reflexivity.
  - intros Hm (n & -> & Hn). rewrite Hm.
    assert (L : lt_zero n = false).
    { destruct (lt_zero n) eqn:E; [|reflexivity].
      apply lt_zero_negative in E. contradiction. }
    cbn [typeof jstype_eqb negb orb]. rewrite L. split; reflexivity.
Qed.

(** The specification's example: round index -1. *)
Lemma submitAiGuess_validation_witness :
  submitAiGuess (fun _ _ => Fulfils [])
    (setAppCheckToken default_client (VStr "abc"))
    (VStr "m1") (VNum (Fin (-1))) (VStr "France") [] =
  (Rejected (JsError (new_Error "roundIndex must be a non-negative number.")), []).
Proof.
  apply (submitAiGuess_validation (fun _ _ => Fulfils [])
           (setAppCheckToken default_client (VStr "abc")) []
           (VStr "m1") (VNum (Fin (-1))) (VStr "France") eq_refl).
  - reflexivity.
  - right. exists (Fin (-1)). split; [reflexivity|]. simpl. lia.
Defined.

(** ** getLeaderboard *)

(** C8. Without an argument [getLeaderboard] sends GET /leaderboard/top
    with no query parameters; with the argument 10 it sends the same
    request with the one query parameter limit, of value 10, and so for
    every truthy limit. *)
Theorem getLeaderboard_limit
    (server : transport) (this : GeoApi) (log : list Sent) :
  snd (getLeaderboard server this VUndefined log) =
    log ++ [axios_request (client this)
              {| method := GET; url := "/leaderboard/top";
                 data := VUndefined; params := VUndefined |}] /\
  snd (getLeaderboard server this (VNum (Fin 10)) log) =
    log ++ [axios_request (client this)
              {| method := GET; url := "/leaderboard/top";
                 data := VUndefined;
                 params := VObj [("limit", VNum (Fin 10))] |}] /\
  (forall limit,
     truthy limit = true ->
     snd (getLeaderboard server this limit log) =
       log ++ [axios_request (client this)
                 {| method := GET; url := "/leaderboard/top";
                    data := VUndefined;
                    params := VObj [("limit", limit)] |}]).
Proof.
  split; [reflexivity|]. split; [reflexivity|].
  intros limit H. unfold getLeaderboard, request. rewrite H. reflexivity.
Qed.

(** C10. The limit 0 is falsy, so [getLeaderboard(0)] behaves as the
    call without argument: GET /leaderboard/top with no query
    parameters.  The query is attached only for a truthy limit: every
    falsy one is treated as an omitted argument. *)
Theorem getLeaderboard_zero
    (server : transport) (this : GeoApi) (log : list Sent) :
  getLeaderboard server this (VNum (Fin 0)) log =
    getLeaderboard server this VUndefined log /\
  snd (getLeaderboard server this (VNum (Fin 0)) log) =
    log ++ [axios_request (client this)
              {| method := GET; url := "/leaderboard/top";
                 data := VUndefined; params := VUndefined |}] /\
  (forall limit,
     truthy limit = false ->
     getLeaderboard server this limit log =
       getLeaderboard server this VUndefined log).
Proof.
  split; [reflexivity|]. split; [reflexivity|].
  intros limit H. unfold getLeaderboard, request. rewrite H. reflexivity.
Qed.

(** ** Every method: guards, endpoint, outcome *)

Ltac unfold_methods :=
  unfold getImage, getPano, startGame, submitScore, startAiDuel, submitAiGuess,
    getLeaderboard, health, testAi, ensureAppCheckToken, guard, reject.

(** A call that passes its guards is one call of [request], with the
    verb and path of its method and a context that is not empty; a call
    that does not pass is rejected with a plain [Error] and the log is
    left as it was. *)
Lemma invoke_cases (server : transport) (this : GeoApi) (c : call) (log : list Sent) :
  if call_accepted this c then
    exists config context,
      invoke server this c log = request server this config (VStr context) log /\
      context <> "" /\
      (method config, url config) = endpoint c /\
      (method config = POST ->
         truthy (appCheckToken this) = true /\ params config = VUndefined) /\
      (method config = GET -> data config = VUndefined)
  else
    exists msg,
      invoke server this c log = (Rejected (JsError (new_Error msg)), log).
Proof.
  destruct c as [| | |g s m| |mi r gu|l| |k]; simpl; unfold_methods;
    try (destruct (truthy (appCheckToken this)) eqn:T; simpl;
         [|eexists; reflexivity]).
  1, 2, 3, 5, 7, 8:
    do 2 eexists; split; [reflexivity|]; repeat split; try discriminate; auto.
  - destruct (truthy g); simpl; [|eexists; reflexivity].
    destruct s; simpl; try (eexists; reflexivity).
    do 2 eexists. split; [reflexivity|]. repeat split; try discriminate; auto.
  - destruct (truthy mi); simpl; [|eexists; reflexivity].
    destruct r as [| | |[z| | |]| | |]; simpl; try (eexists; reflexivity).
    + destruct (Z.ltb_spec z 0), (Z.leb_spec 0 z); try lia.
      * eexists; reflexivity.
      * do 2 eexists. split; [reflexivity|]. repeat split; try discriminate; auto.
    + do 2 eexists. split; [reflexivity|]. repeat split; try discriminate; auto.
    + do 2 eexists. split; [reflexivity|]. repeat split; try discriminate; auto.
  - destruct (truthy k); simpl; [|eexists; reflexivity].
    do 2 eexists. split; [reflexivity|]. repeat split; try discriminate; auto.
Qed.

Lemma request_log
    (server : transport) (this : GeoApi) (config : RequestConfig)
    (context : value) (log : list Sent) :
  snd (request server this config context log) =
    log ++ [axios_request (client this) config].
Proof. reflexivity. Qed.

Lemma log_snoc_inv (log : list Sent) (a b : Sent) :
  log ++ [a] = log ++ [b] -> a = b.
Proof. intros H. apply app_inv_head in H. congruence. Qed.

Lemma log_not_snoc (log : list Sent) (a : Sent) : log <> log ++ [a].
Proof.
  intros H. apply (f_equal (@List.length Sent)) in H.
  rewrite List.length_app in H. simpl in H. lia.
Qed.

(** The first part of the message. *)
Lemma buildError_head (error : obj) (context : string) :
  context <> "" ->
  starts_with ("Api request failed during " +:+ context)
    (message (buildError error (VStr context))).
Proof.
  intros Hc. apply truthy_VStr in Hc. unfold buildError. rewrite Hc.
  destruct (truthy (get error "response"));
    [destruct (truthy (get_prop (get error "response") "data"))|
     destruct (truthy (get error "request"));
       [|destruct (truthy (get error "message"))]];
    simpl; try (eexists; reflexivity).
  exists "". symmetry. apply string_app_nil_r.
Qed.

(** X1. Whatever the method, once its request has reached the transport
    the result is decided by the transport's answer alone: a fulfilled
    call resolves to the [data] property of the response, unchanged
    ([undefined] when there is none), and a rejected call rejects with
    [buildError] of the transport's error under a context that is not
    empty, so that the message starts with "Api request failed during "
    and the context, and the transport's error is kept as [original]. *)
Theorem invoke_outcome
    (server : transport) (this : GeoApi) (c : call) (log : list Sent) (sent : Sent) :
  snd (invoke server this c log) = log ++ [sent] ->
  (forall response,
     server log sent = Fulfils response ->
     fst (invoke server this c log) = Fulfilled (get response "data")) /\
  (forall error,
     server log sent = Rejects error ->
     exists context,
       context <> "" /\
       fst (invoke server this c log) =
         Rejected (JsError (buildError error (VStr context))) /\
       starts_with ("Api request failed during " +:+ context)
         (message (buildError error (VStr context))) /\
       original (buildError error (VStr context)) = VObj error).
Proof.
  intros H. pose proof (invoke_cases server this c log) as I.
  destruct (call_accepted this c).
  - destruct I as (config & context & E & Hc & _).
    rewrite E in *. rewrite request_log in H. apply log_snoc_inv in H. subst sent.
    unfold request. split.
    + intros response R. rewrite R. reflexivity.
    + intros error R. rewrite R. exists context.
      split; [exact Hc|]. split; [reflexivity|].
      split; [apply buildError_head, Hc | reflexivity].
  - destruct I as (msg & E). rewrite E in H. simpl in H.
    destruct (log_not_snoc _ _ H).
Qed.

(** The outcome of [health()] on a server that answers, on one whose
    answer has no body, and on one that is down. *)
Lemma invoke_outcome_witness :
  fst (invoke (fun _ _ => Fulfils [("status", VNum (Fin 200));
                                    ("data", VObj [("status", VStr "ok")])])
         default_client Health []) = Fulfilled (VObj [("status", VStr "ok")]) /\
  fst (invoke (fun _ _ => Fulfils [("status", VNum (Fin 204))])
         default_client Health []) = Fulfilled VUndefined /\
  exists context,
    fst (invoke (fun _ _ => Rejects error_timeout) default_client Health []) =
      Rejected (JsError (buildError error_timeout (VStr context))).
Proof.
  split; [|split].
  - exact (proj1 (invoke_outcome
                    (fun _ _ => Fulfils [("status", VNum (Fin 200));
                                         ("data", VObj [("status", VStr "ok")])])
                    default_client Health []
                    (axios_request (client default_client)
                       (mkConfig GET "/health" VUndefined VUndefined)) eq_refl)
             _ eq_refl).
  - exact (proj1 (invoke_outcome
                    (fun _ _ => Fulfils [("status", VNum (Fin 204))])
                    default_client Health []
                    (axios_request (client default_client)
                       (mkConfig GET "/health" VUndefined VUndefined)) eq_refl)
             _ eq_refl).
  - destruct (proj2 (invoke_outcome (fun _ _ => Rejects error_timeout)
                       default_client Health []
                       (axios_request (client default_client)
                          (mkConfig GET "/health" VUndefined VUndefined)) eq_refl)
                error_timeout eq_refl) as (context & _ & H & _).
    exists context. exact H.
Defined.

(** X2. A call reaches the transport exactly when it passes the guards
    of its method: the unprotected reads always do, [testAi] needs a
    truthy key, and the four protected methods need a truthy token and
    valid arguments.  A call that passes sends one request, built from
    the defaults of the client, with the verb and path of its method; a
    call that does not pass is rejected with a plain [Error] (no status,
    no original) and the log is unchanged. *)
Theorem invoke_reaches_transport
    (server : transport) (this : GeoApi) (c : call) (log : list Sent) :
  (call_accepted this c = true <->
   exists config,
     snd (invoke server this c log) = log ++ [axios_request (client this) config] /\
     (method config, url config) = endpoint c) /\
  (call_accepted this c = false <->
   snd (invoke server this c log) = log /\
   exists e,
     fst (invoke server this c log) = Rejected (JsError e) /\
     status e = VUndefined /\ original e = VUndefined).
Proof.
  pose proof (invoke_cases server this c log) as I.
  destruct (call_accepted this c).
  - destruct I as (config & context & E & _ & Hep & _). split; split.
    + intros _. exists config. rewrite E, request_log. auto.
    + reflexivity.
    + discriminate.
    + intros [H _]. rewrite E, request_log in H. symmetry in H.
      destruct (log_not_snoc _ _ H).
  - destruct I as (msg & E). split; split.
    + discriminate.
    + intros (config & H & _). rewrite E in H. simpl in H.
      destruct (log_not_snoc _ _ H).
    + intros _. rewrite E. simpl. split; [reflexivity|].
      eexists. split; [reflexivity|]. split; reflexivity.
    + reflexivity.
Qed.

(** The guards on a client without a token: the leaderboard is read,
    a score is not submitted. *)
Lemma invoke_reaches_transport_witness :
  (exists config,
     snd (invoke (fun _ _ => Fulfils []) default_client (GetLeaderboard VUndefined) []) =
       [] ++ [axios_request (client default_client) config] /\
     (method config, url config) = (GET, "/leaderboard/top")) /\
  snd (invoke (fun _ _ => Fulfils []) default_client
         (SubmitScore (VStr "g1") (VNum (Fin 3)) VUndefined) []) = [].
Proof.
  split.
  - apply (proj1 (invoke_reaches_transport (fun _ _ => Fulfils []) default_client
                    (GetLeaderboard VUndefined) [])).
    reflexivity.
  - apply (proj2 (invoke_reaches_transport (fun _ _ => Fulfils []) default_client
                    (SubmitScore (VStr "g1") (VNum (Fin 3)) VUndefined) [])).
    reflexivity.
Defined.

(** X3. No method sends a POST from a client whose token is not
    configured; a POST never has query parameters and a GET never has a
    body. *)
Theorem invoke_verbs
    (server : transport) (this : GeoApi) (c : call) (log : list Sent) (sent : Sent) :
  snd (invoke server this c log) = log ++ [sent] ->
  (method (sent_config sent) = POST ->
     truthy (appCheckToken this) = true /\ params (sent_config sent) = VUndefined) /\
  (method (sent_config sent) = GET -> data (sent_config sent) = VUndefined).
Proof.
  intros H. pose proof (invoke_cases server this c log) as I.
  destruct (call_accepted this c).
  - destruct I as (config & context & E & _ & _ & HP & HG).
    rewrite E, request_log in H. apply log_snoc_inv in H. subst sent.
    split; assumption.
  - destruct I as (msg & E). rewrite E in H. simpl in H.
    destruct (log_not_snoc _ _ H).
Qed.

Lemma invoke_verbs_witness :
  truthy (appCheckToken (setAppCheckToken default_client (VStr "abc"))) = true /\
  params (mkConfig POST "/ai-duel/start" VUndefined VUndefined) = VUndefined.
Proof.
  apply (invoke_verbs (fun _ _ => Fulfils [])
           (setAppCheckToken default_client (VStr "abc")) StartAiDuel []
           (axios_request (client (setAppCheckToken default_client (VStr "abc")))
              (mkConfig POST "/ai-duel/start" VUndefined VUndefined)) eq_refl).
  reflexivity.
Defined.

(** X4. With a token configured, [submitScore] checks the session id
    first and the score second, each before any call of the transport:
    a falsy [gameSessionId] is rejected whatever the score, and a score
    whose type is not number (a numeric string, null, a missing
    argument) is rejected; every value of type number passes, NaN
    included. *)
Theorem submitScore_validation
    (server : transport) (this : GeoApi) (log : list Sent)
    (gameSessionId score metadata : value) :
  truthy (appCheckToken this) = true ->
  (truthy gameSessionId = false ->
     submitScore server this gameSessionId score metadata log =
       (Rejected (JsError (new_Error
          "gameSessionId is required to submit a score.")), log)) /\
  (truthy gameSessionId = true -> (forall n, score <> VNum n) ->
     submitScore server this gameSessionId score metadata log =
       (Rejected (JsError (new_Error
          "score must be provided as a number.")), log)) /\
  (truthy gameSessionId = true -> (exists n, score = VNum n) ->
     exists sent,
       snd (submitScore server this gameSessionId score metadata log) = log ++ [sent]).
Proof.
  intros T. unfold submitScore.
  rewrite ensureAppCheckToken_present by exact T. simpl guard.
  split; [|split].
  - intros G. rewrite G. reflexivity.
  - intros G S. rewrite G. cbn [negb].
    destruct score; try reflexivity. destruct (S n). reflexivity.
  - intros G (n & ->). rewrite G. eexists. reflexivity.
Qed.

Lemma submitScore_validation_witness :
  submitScore (fun _ _ => Fulfils [])
    (setAppCheckToken default_client (VStr "abc"))
    (VStr "g1") (VStr "12") VUndefined [] =
  (Rejected (JsError (new_Error "score must be provided as a number.")), []).
Proof.
  apply (submitScore_validation (fun _ _ => Fulfils [])
           (setAppCheckToken default_client (VStr "abc")) []
           (VStr "g1") (VStr "12") VUndefined eq_refl).
  - reflexivity.
  - discriminate.
Defined.

(** X5. [testAi] does not look at the App Check token: on every client
    a falsy key is rejected before any call of the transport, and a
    truthy key is sent as the one query parameter [key] of a GET to
    /test-ai. *)
Theorem testAi_key
    (server : transport) (this : GeoApi) (log : list Sent) (key : value) :
  (truthy key = false ->
     testAi server this key log =
       (Rejected (JsError (new_Error
          "A testing key is required to call the test AI endpoint.")), log)) /\
  (truthy key = true ->
     snd (testAi server this key log) =
       log ++ [axios_request (client this)
                 {| method := GET; url := "/test-ai";
                    data := VUndefined; params := VObj [("key", key)] |}]).
Proof.
  unfold testAi. split; intros H; rewrite H; reflexivity.
Qed.

Lemma testAi_key_witness :
  snd (testAi (fun _ _ => Fulfils []) default_client (VStr "dev") []) =
    [axios_request (client default_client)
       {| method := GET; url := "/test-ai";
          data := VUndefined; params := VObj [("key", VStr "dev")] |}].
Proof.
  apply (proj2 (testAi_key (fun _ _ => Fulfils []) default_client [] (VStr "dev"))).
  reflexivity.
Defined.

(** ** The state of the client *)

Lemma normalizeBaseUrl_Normal_str (v : value) (r : string) :
  normalizeBaseUrl v = Normal r -> exists s, v = VStr s /\ s <> "".
Proof.
  intros H. destruct v as [| |b|n|s|a|o];
    try (unfold normalizeBaseUrl in H; destruct (negb (truthy _)); discriminate).
  exists s. split; [reflexivity|]. apply (normalizeBaseUrl_Normal_inv s r H).
Qed.

Lemma lowercase_app (s t : string) :
  lowercase (s +:+ t) = lowercase s +:+ lowercase t.
Proof.
  induction s as [|c s IH]; [reflexivity|].
  rewrite string_app_cons. simpl. rewrite IH. reflexivity.
Qed.

Lemma lowercase_nil (s : string) : lowercase s = "" -> s = "".
Proof. destruct s; [reflexivity | discriminate]. Qed.

(** A string with a scheme and something after it is not a bare scheme. *)
Lemma scheme_then_rest_not_bare (p rest : string) :
  lowercase p = "http://" \/ lowercase p = "https://" ->
  rest <> "" -> ~ bare_scheme (p +:+ rest).
Proof.
  intros Hp Hr [B|B]; rewrite lowercase_app in B;
    destruct Hp as [Hp|Hp]; rewrite Hp in B;
    try discriminate;
    apply Hr, lowercase_nil;
    destruct (lowercase rest); [reflexivity | discriminate | reflexivity | discriminate].
Qed.

Lemma bare_scheme_has_protocol (t : string) : bare_scheme t -> has_protocol t = true.
Proof.
  intros B. apply has_protocol_spec. exists t, "".
  rewrite string_app_nil_r. split; [reflexivity | exact B].
Qed.

(** Less its last slash, a bare scheme is a scheme no more. *)
Lemma bare_scheme_strip (t : string) :
  bare_scheme t -> has_protocol (strip_trailing_slash t) = false.
Proof.
  intros B. destruct (bare_protocol_last t B) as [p' ->].
  change (p' +:+ "//") with (p' +:+ "/" +:+ "/").
  rewrite <- string_app_assoc, strip_snoc_slash.
  apply has_protocol_false. intros (q & rest & E & Hq).
  unfold bare_scheme in B.
  apply (f_equal lowercase) in E. rewrite !lowercase_app in E.
  rewrite lowercase_app in B. simpl lowercase in E, B.
  destruct B as [B|B]; destruct Hq as [Hq|Hq]; rewrite Hq in E;
    destruct (lowercase p')
      as [|a1 [|a2 [|a3 [|a4 [|a5 [|a6 [|a7 [|a8 [|a9 l]]]]]]]]];
    vm_compute in B, E; congruence.
Qed.

Lemma GeoApi_new_well_formed (url token : value) (this : GeoApi) :
  GeoApi_new url token = Normal this -> well_formed this.
Proof.
  intros H. pose proof (GeoApi_new_invariant url token this H) as I.
  unfold GeoApi_new in H.
  destruct (normalizeBaseUrl _) as [base|e] eqn:N; [|discriminate].
  destruct (normalizeBaseUrl_Normal_str _ _ N) as (s & Es & Hs).
  rewrite Es in N.
  destruct (truthy (default_to VNull token)); injection H as <-;
    (split; [reflexivity|split; [reflexivity|split; [|exact I]]]);
    exists s; split; assumption.
Qed.

Lemma setAppCheckToken_well_formed (this : GeoApi) (token : value) :
  well_formed this -> well_formed (setAppCheckToken this token).
Proof.
  intros (B & T & N & _).
  split; [exact B|split; [exact T|split; [exact N|]]].
  apply setAppCheckToken_invariant.
Qed.

Lemma setBaseUrl_well_formed (this : GeoApi) (url : value) (this' : GeoApi) :
  well_formed this -> setBaseUrl this url = Normal this' -> well_formed this'.
Proof.
  intros (B & T & N & I) H. unfold setBaseUrl in H.
  destruct (normalizeBaseUrl url) as [base|e] eqn:E; [|discriminate].
  destruct (normalizeBaseUrl_Normal_str _ _ E) as (s & Es & Hs). rewrite Es in E.
  injection H as <-.
  split; [reflexivity|split; [exact T|split; [|exact I]]].
  exists s. split; assumption.
Qed.

Lemma normalizeBaseUrl_nonempty (s r : string) :
  normalizeBaseUrl (VStr s) = Normal r -> (6 <= String.length r)%nat.
Proof.
  intros H.
  destruct (normalizeBaseUrl_shape s r H) as [[_ ->]|[(T & P & ->)|(_ & _ & ->)]].
  - simpl. lia.
  - apply has_protocol_spec in P as (p & rest & E & Hp).
    assert (L : (7 <= String.length (trim s))%nat).
    { rewrite E, string_length_app.
      assert (7 <= String.length p)%nat; [|lia].
      destruct Hp as [Hp|Hp]; apply (f_equal String.length) in Hp; simpl in Hp;
        clear -Hp; revert Hp;
        assert (G : forall q, String.length (lowercase q) = String.length q)
          by (induction q; simpl; congruence);
        rewrite G; lia. }
    destruct (length_strip (trim s)) as [<-|L']; lia.
  - rewrite string_length_app. simpl. lia.
Qed.

(** X6. On every client a program can hold (built by the constructor,
    then changed by [setAppCheckToken] and [setBaseUrl] in any order)
    the stored base URL is the one of the transport defaults, it is a
    result of [normalizeBaseUrl] and so has at least six characters, the
    timeout is still 15000, and the header follows the token.  Hence
    every request of every method carries that base URL, that timeout
    and the header exactly when the token is truthy. *)
Theorem reachable_well_formed (this : GeoApi) :
  reachable this ->
  well_formed this /\
  (6 <= String.length (baseURL this))%nat /\
  forall server c log sent,
    snd (invoke server this c log) = log ++ [sent] ->
    sent_baseURL sent = baseURL this /\
    sent_timeout sent = 15000 /\
    sent_headers sent !! APP_CHECK_HEADER =
      (if truthy (appCheckToken this) then Some (appCheckToken this) else None).
Proof.
  intros R.
  assert (W : well_formed this).
  { induction R as [url token this H|this token R IH|this url this' R IH H].
    - apply (GeoApi_new_well_formed url token this H).
    - apply setAppCheckToken_well_formed, IH.
    - apply (setBaseUrl_well_formed this url this' IH H). }
  split; [exact W|]. destruct W as (B & T & (s & _ & N) & I).
  split; [apply (normalizeBaseUrl_nonempty s), N|].
  intros server c log sent H.
  destruct (invoke_log server this c log) as [E|[config E]].
  - rewrite E in H. destruct (log_not_snoc _ _ H).
  - rewrite E in H. apply log_snoc_inv in H. subst sent. simpl.
    split; [exact B|split; [exact T | exact I]].
Qed.

(** A client built on "example.org/api/", given a token, then moved to
    "http://localhost:8080". *)
Lemma reachable_well_formed_witness :
  well_formed
    {| baseURL := "http://localhost:8080";
       client :=
         {| defaults_baseURL := "http://localhost:8080";
            defaults_timeout := 15000;
            defaults_headers_common :=
              defaults_headers_common
                (client (setAppCheckToken
                           (setAppCheckToken default_client (VStr "abc"))
                           (VStr "xyz"))) |};
       appCheckToken := VStr "xyz" |}.
Proof.
  apply reachable_well_formed.
  apply (reach_url
           (setAppCheckToken (setAppCheckToken default_client (VStr "abc")) (VStr "xyz"))
           (VStr "http://localhost:8080/")).
  - apply reach_token, reach_token.
    apply (reach_new VUndefined VUndefined). reflexivity.
  - reflexivity.
Defined.

Lemma truthy_default_null (token : value) :
  truthy (default_to VNull token) = truthy token /\
  (truthy token = true -> default_to VNull token = token).
Proof. destruct token; split; try reflexivity; discriminate. Qed.

(** X7. The last [setAppCheckToken] wins: setting a token after another
    one gives the client that setting it alone gives, whatever the two
    values (set, replace, clear, clear twice).  No header other than
    X-Firebase-AppCheck is touched, nor the base URL or the timeout. *)
Theorem setAppCheckToken_last_wins (this : GeoApi) (first second : value) :
  setAppCheckToken (setAppCheckToken this first) second =
    setAppCheckToken this second /\
  (forall name,
     name <> APP_CHECK_HEADER ->
     defaults_headers_common (client (setAppCheckToken this first)) !! name =
       defaults_headers_common (client this) !! name) /\
  baseURL (setAppCheckToken this first) = baseURL this /\
  defaults_baseURL (client (setAppCheckToken this first)) =
    defaults_baseURL (client this) /\
  defaults_timeout (client (setAppCheckToken this first)) =
    defaults_timeout (client this).
Proof.
  split; [|split; [|repeat split]].
  - unfold setAppCheckToken. simpl. do 2 f_equal.
    destruct (truthy first), (truthy second).
    + apply insert_insert_eq.
    + apply delete_insert_eq.
    + apply insert_delete_eq.
    + apply delete_delete_eq.
  - intros name Hn. unfold setAppCheckToken. simpl.
    destruct (truthy first).
    + apply lookup_insert_ne. congruence.
    + apply lookup_delete_ne. congruence.
Qed.

Lemma setAppCheckToken_last_wins_witness :
  setAppCheckToken (setAppCheckToken default_client (VStr "abc")) VNull =
    setAppCheckToken default_client VNull /\
  defaults_headers_common (client (setAppCheckToken default_client (VStr "abc")))
    !! "Accept" = Some (VStr "application/json, text/plain, */*").
Proof.
  destruct (setAppCheckToken_last_wins default_client (VStr "abc") VNull)
    as (H1 & H2 & _).
  split; [exact H1|]. rewrite H2; [reflexivity | discriminate].
Defined.

(** X8. The two setters do not interfere: changing the base URL of a
    client whose token was just set gives the client obtained by setting
    the token after the change, and fails, with the same error, exactly
    when the change alone fails. *)
Theorem setters_commute (this : GeoApi) (token url : value) :
  setBaseUrl (setAppCheckToken this token) url =
    match setBaseUrl this url with
    | Normal this' => Normal (setAppCheckToken this' token)
    | Throw e => Throw e
    end.
Proof.
  unfold setBaseUrl. destruct (normalizeBaseUrl url); reflexivity.
Qed.

(** X9. The constructor with a token is the constructor without one
    followed by [setAppCheckToken] when the token is truthy; a falsy
    token argument is not stored, the token stays null (while
    [setAppCheckToken] stores the value it is given).  The constructor
    fails exactly when [normalizeBaseUrl] fails on the base URL, the
    default one when the argument is missing, so [new GeoApi()] never
    fails. *)
Theorem GeoApi_new_token (url token : value) :
  GeoApi_new url token =
    match GeoApi_new url VUndefined with
    | Normal this => Normal (if truthy token then setAppCheckToken this token else this)
    | Throw e => Throw e
    end /\
  (forall this,
     GeoApi_new url token = Normal this ->
     appCheckToken this = (if truthy token then token else VNull) /\
     normalizeBaseUrl (default_to (VStr DEFAULT_BASE_URL) url) = Normal (baseURL this)) /\
  (forall e,
     GeoApi_new url token = Throw e <->
     normalizeBaseUrl (default_to (VStr DEFAULT_BASE_URL) url) = Throw e) /\
  (exists this,
     GeoApi_new VUndefined token = Normal this /\
     baseURL this = "https://api.geo.oof2510.space").
Proof.
  destruct (truthy_default_null token) as [Ht Hd].
  split; [|split; [|split]].
  - unfold GeoApi_new. destruct (normalizeBaseUrl _); [|reflexivity].
    simpl. rewrite Ht. destruct (truthy token) eqn:T; [|reflexivity].
    rewrite (Hd eq_refl). reflexivity.
  - intros this. unfold GeoApi_new.
    destruct (normalizeBaseUrl _) as [base|e]; [|discriminate].
    rewrite Ht. destruct (truthy token) eqn:T; intros [= <-].
    + rewrite (Hd eq_refl). split; reflexivity.
    + split; reflexivity.
  - intros e. unfold GeoApi_new.
    destruct (normalizeBaseUrl _) as [base|e']; split; congruence.
  - unfold GeoApi_new. simpl. eexists. split; [reflexivity|].
    destruct (truthy (default_to VNull token)); reflexivity.
Qed.

Lemma GeoApi_new_token_witness :
  (forall this,
     GeoApi_new (VStr "example.org") (VStr "") = Normal this ->
     appCheckToken this = VNull) /\
  appCheckToken (setAppCheckToken default_client (VStr "")) = VStr "".
Proof.
  split; [|reflexivity].
  intros this H.
  apply (proj1 (proj2 (GeoApi_new_token (VStr "example.org") (VStr ""))) this H).
Defined.

(** ** normalizeBaseUrl: more *)

Lemma all_ws_app (s t : string) :
  all_ws s = true -> all_ws t = true -> all_ws (s +:+ t) = true.
Proof.
  intros Hs Ht. induction s as [|c s IH]; [exact Ht|].
  rewrite string_app_cons. simpl in *. apply andb_prop in Hs as [Hc Hs].
  rewrite Hc. apply IH, Hs.
Qed.

Lemma trim_padded (lead s trail : string) :
  all_ws lead = true -> all_ws trail = true ->
  trim (lead +:+ s +:+ trail) = trim s.
Proof.
  intros Wl Wt. destruct (trim_decomp s) as (l & r & E & Hl & Hr & N).
  rewrite E at 1.
  replace (lead +:+ (l +:+ trim s +:+ r) +:+ trail)
    with ((lead +:+ l) +:+ trim s +:+ (r +:+ trail))
    by (rewrite !string_app_assoc; reflexivity).
  apply trim_unique; [apply all_ws_app | apply all_ws_app |]; assumption.
Qed.

(** X10. Whitespace around a non-empty string does not count: the
    padded string is normalized to the result of the string itself.
    The empty string is the exception the hypothesis excludes: it is
    rejected, while a padded empty string is not. *)
Theorem normalizeBaseUrl_padding (lead s trail : string) :
  all_ws lead = true -> all_ws trail = true -> s <> "" ->
  normalizeBaseUrl (VStr (lead +:+ s +:+ trail)) = normalizeBaseUrl (VStr s).
Proof.
  intros Wl Wt Hs.
  assert (Hp : lead +:+ s +:+ trail <> "").
  { intros E. apply string_app_eq_nil in E as [_ E].
    apply string_app_eq_nil in E as [E _]. contradiction. }
  rewrite !normalizeBaseUrl_str by assumption.
  rewrite (trim_padded lead s trail Wl Wt). reflexivity.
Qed.

Lemma normalizeBaseUrl_padding_witness :
  normalizeBaseUrl (VStr "  example.com/ ") = normalizeBaseUrl (VStr "example.com/").
Proof.
  apply (normalizeBaseUrl_padding "  " "example.com/" " ");
    [reflexivity | reflexivity | discriminate].
Defined.

(** X11. The result of [normalizeBaseUrl] starts with a scheme
    (http:// or https://, the letter case of the input kept) except in
    two cases: when the trimmed input is empty, and when it is a scheme
    and nothing else; there the slash is stripped off the scheme
    itself. *)
Theorem normalizeBaseUrl_scheme (s r : string) :
  normalizeBaseUrl (VStr s) = Normal r ->
  (has_protocol r = true <-> trim s <> "" /\ ~ bare_scheme (trim s)) /\
  (has_protocol (trim s) = true -> r = strip_trailing_slash (trim s)) /\
  (has_protocol (trim s) = false -> trim s <> "" ->
     r = "https://" +:+ strip_trailing_slash (trim s)).
Proof.
  intros H.
  destruct (normalizeBaseUrl_shape s r H) as [[T ->]|[(T & P & ->)|(T & P & ->)]].
  - rewrite T. split; [|split].
    + split; [discriminate | intros [E _]; contradiction].
    + discriminate.
    + intros _ E. contradiction.
  - rewrite P. split; [|split; [reflexivity | discriminate]].
    pose proof P as P'. apply has_protocol_spec in P' as (p & rest & E & Hp).
    destruct rest as [|a rest].
    + rewrite string_app_nil_r in E. rewrite E.
      rewrite (bare_scheme_strip p Hp). split; [discriminate|].
      intros [_ B]. destruct (B Hp).
    + rewrite E, strip_app by discriminate. split.
      * intros _. split; [intros F; apply string_app_eq_nil in F as [_ F]; discriminate|].
        apply scheme_then_rest_not_bare; [exact Hp | discriminate].
      * intros _. apply has_protocol_spec.
        exists p, (strip_trailing_slash (String a rest)). auto.
  - rewrite P. split; [|split; [discriminate | reflexivity]].
    split.
    + intros _. split; [exact T|]. intros B.
      apply bare_scheme_has_protocol in B. congruence.
    + reflexivity.
Qed.

Lemma normalizeBaseUrl_scheme_witness :
  has_protocol "HTTP://Example.com" = true /\
  ~ (trim "http://" <> "" /\ ~ bare_scheme (trim "http://")).
Proof.
  split.
  - apply (proj1 (normalizeBaseUrl_scheme "HTTP://Example.com/" "HTTP://Example.com"
                    eq_refl)).
    split; [discriminate|]. intros [B|B]; discriminate.
  - intros C.
    apply (proj1 (normalizeBaseUrl_scheme "http://" "http:/" eq_refl)) in C.
    discriminate.
Defined.

(** ** buildError: what is left out of the message *)

(** X12. When the transport's error has a response, or has none but has
    a request, its own message is left out of the wrapped message: two
    errors that agree on [response] and [request] are wrapped into the
    same message and status, whatever their messages (the text stays
    reachable through [original]). *)
Theorem buildError_message_dropped (e1 e2 : obj) (context : value) :
  get e1 "response" = get e2 "response" ->
  get e1 "request" = get e2 "request" ->
  truthy (get e1 "response") || truthy (get e1 "request") = true ->
  message (buildError e1 context) = message (buildError e2 context) /\
  status (buildError e1 context) = status (buildError e2 context).
Proof.
  intros R Q H. unfold buildError. rewrite <- R, <- Q.
  destruct (truthy (get e1 "response")); [split; reflexivity|].
  simpl in H. rewrite H. split; reflexivity.
Qed.

Lemma buildError_message_dropped_witness :
  message (buildError error_timeout (VStr "start game")) =
    message (buildError [("message", VStr "Network Error"); ("request", VObj [])]
               (VStr "start game")).
Proof.
  apply (buildError_message_dropped error_timeout
           [("message", VStr "Network Error"); ("request", VObj [])]
           (VStr "start game")); reflexivity.
Defined.
